(** * Presentation-to-Anki: the slide cleaner, the response recovery chain,
      the per-slide card generator, the deck builder and the file pipeline
      of [presentation_to_anki.py] (class [DeepSeekEnhancedConverter]).

    The Python code is embedded as Rocq functions:
    - a Python [str] is a list of code points ([N]);
    - the library calls of the source ([str.strip], [str.split], [re.match],
      [re.search], [re.sub], [re.findall], [json.loads], [os.path.splitext])
      are given executable models in the first half of the file;
    - exceptions are values of [exn] carried by [result]; the Unicode
      tables and the limits of the interpreter are parameters;
    - a slide is always built with its three items, so it is a record; a
      card comes from decoded JSON, so it stays the JSON value it is;
    - progress reports, printing and the pause between attempts are left
      out ([progress_callback] is [None], its default);
    - the completion client, the PDF reader and the random source are
      oracles of an environment record, and the calls made to the client
      are logged in the state that the generator threads through. *)

From Stdlib Require Import Ascii String List NArith ZArith Bool Lia.
From Stdlib Require Import DecimalString.
Import ListNotations.

Set Implicit Arguments.
Open Scope N_scope.

(* ===================================================================== *)
(** * Text *)
(* ===================================================================== *)

Definition char := N.
Definition str := list char.

(** An ASCII literal read as a Python string. *)
Definition py (s : string) : str := map N_of_ascii (list_ascii_of_string s).

(** A literal in which the apostrophe stands for the double quote; only
    used to write JSON text in the examples. *)
Definition pyq (s : string) : str :=
  map (fun c => if c =? 39 then 34 else c) (py s).

Definition nl : char := 10.
Definition dquote : char := 34.
Definition squote : char := 39.

Definition char_eqb (a b : char) : bool := a =? b.

Fixpoint str_eqb (a b : str) : bool :=
  match a, b with
  | [], [] => true
  | x :: a', y :: b' => char_eqb x y && str_eqb a' b'
  | _, _ => false
  end.

(** ** The Unicode database

    [str.strip], [str.lower] and the classes [\w], [\d], [\s] of [re]
    consult the interpreter's Unicode tables.  Their ASCII part is written
    out below; the part beyond code point 127 is a parameter. *)

Class UnicodeData := {
  uni_isspace   : char -> bool;   (* Py_UNICODE_ISSPACE   *)
  uni_isalnum   : char -> bool;   (* Py_UNICODE_ISALNUM   *)
  uni_isdecimal : char -> bool;   (* Py_UNICODE_ISDECIMAL *)
  uni_lower     : str -> str      (* str.lower on text that is not ASCII *)
}.

(** ** The limits of the interpreter

    [json.loads] raises [RecursionError] when arrays and objects are nested
    deeper than the recursion limit leaves room for where it is called,
    and [ValueError] when an integer has more digits than
    [sys.get_int_max_str_digits()] (4300 unless it is changed; 0 for no
    limit). *)

Class Limits := {
  recursion_depth : nat;       (* the nesting that the decoder can enter *)
  int_max_str_digits : nat
}.

Definition in_range (lo hi c : char) : bool := (lo <=? c) && (c <=? hi).
Definition is_ascii (c : char) : bool := c <? 128.

Section Text.
Context {U : UnicodeData}.

Definition isspace (c : char) : bool :=
  if is_ascii c
  then in_range 9 13 c || in_range 28 31 c || (c =? 32)
  else uni_isspace c.

Definition isdecimal (c : char) : bool :=
  if is_ascii c then in_range 48 57 c else uni_isdecimal c.

Definition isalnum (c : char) : bool :=
  if is_ascii c
  then in_range 48 57 c || in_range 65 90 c || in_range 97 122 c
  else uni_isalnum c.

Fixpoint lstrip (s : str) : str :=
  match s with
  | c :: s' => if isspace c then lstrip s' else s
  | [] => []
  end.

Definition rstrip (s : str) : str := rev (lstrip (rev s)).

(** [s.strip()] *)
Definition strip (s : str) : str := rstrip (lstrip s).

(** [s.lower()] *)
Definition lower (s : str) : str :=
  if forallb is_ascii s
  then map (fun c => if in_range 65 90 c then c + 32 else c) s
  else uni_lower s.

End Text.

(** [s.split(sep)] for a one-character separator: the pieces between the
    occurrences of [sep]; never the empty list. *)
Fixpoint split (sep : char) (s : str) : list str :=
  match s with
  | [] => [[]]
  | c :: s' =>
      if char_eqb c sep then [] :: split sep s'
      else match split sep s' with
           | l :: ls => (c :: l) :: ls
           | [] => [[c]]
           end
  end.

(** [sep.join(parts)] *)
Fixpoint join (sep : str) (parts : list str) : str :=
  match parts with
  | [] => []
  | [p] => p
  | p :: ps => p ++ sep ++ join sep ps
  end.

(** [str(n)] for an [int]. *)
Definition str_of_int (z : Z) : str := py (NilZero.string_of_int (Z.to_int z)).

(* ===================================================================== *)
(** * Regular expressions: the fragment of [re] that the source uses *)
(* ===================================================================== *)

(** Every repetition in the patterns of the source is over a single
    character item, so [Rep] repeats an [atom]. *)

Inductive cls := Word | Digit | Space.          (* \w  \d  \s *)

Inductive atom :=
| AChar (c : char)                               (* a literal character *)
| ADot                                           (* .                   *)
| ACls (k : cls)
| ASet (neg : bool) (chars : str) (classes : list cls).   (* [...] and [^...] *)

Inductive regex :=
| Eps
| Atom (a : atom)
| Rep (a : atom) (lo : nat) (hi : option nat) (greedy : bool)
| Seq (r1 r2 : regex)
| Group (n : nat) (r : regex)                    (* the n-th capturing group *)
| Bol                                            (* ^ *)
| Eol.                                           (* $ *)

Definition seq (rs : list regex) : regex := fold_right Seq Eps rs.
Definition lit (s : string) : regex := seq (map (fun c => Atom (AChar c)) (py s)).
Definition star (a : atom) : regex := Rep a 0 None true.         (* a*  *)
Definition plus (a : atom) : regex := Rep a 1 None true.         (* a+  *)
Definition opt (a : atom) : regex := Rep a 0 (Some 1%nat) true.  (* a?  *)
Definition lazy_star (a : atom) : regex := Rep a 0 None false.   (* a*? *)
Definition lazy_plus (a : atom) : regex := Rep a 1 None false.   (* a+? *)

(** The state of a match attempt: the position in the subject, what is
    left of the subject, and the text of the groups closed so far (latest
    first). *)
Record mstate := { pos : nat; rest : str; caps : list (nat * str) }.

Definition group (n : nat) (st : mstate) : str :=
  match find (fun g => Nat.eqb (fst g) n) (caps st) with
  | Some g => snd g
  | None => []
  end.

Inductive tpl := TLit (s : str) | TGroup (n : nat).

(** The expansion of a replacement template such as ["\1":] *)
Definition expand (t : list tpl) (st : mstate) : str :=
  flat_map (fun x => match x with TLit s => s | TGroup n => group n st end) t.

Section Regex.
Context {U : UnicodeData}.
Variable dotall : bool.                          (* the flag re.DOTALL *)

Definition cls_ok (k : cls) (c : char) : bool :=
  match k with
  | Word => isalnum c || (c =? 95)
  | Digit => isdecimal c
  | Space => isspace c
  end.

Definition atom_ok (a : atom) (c : char) : bool :=
  match a with
  | AChar x => char_eqb c x
  | ADot => dotall || negb (char_eqb c nl)
  | ACls k => cls_ok k c
  | ASet neg chars classes =>
      xorb neg (existsb (char_eqb c) chars || existsb (fun k => cls_ok k c) classes)
  end.

Definition hi_allows (hi : option nat) : bool :=
  match hi with Some O => false | _ => true end.

(** The backtracking order of a repetition: a greedy one first takes one
    more character and only then tries to go on with what follows, a lazy
    one the other way round. *)
Fixpoint rep (A : Type) (greedy : bool) (p : char -> bool) (lo : nat) (hi : option nat)
    (cs : str) (at_ : nat) (k : str -> nat -> option A) : option A :=
  let more (_ : unit) :=
    match cs with
    | c :: cs' =>
        if p c && hi_allows hi
        then rep greedy p (Nat.pred lo) (option_map Nat.pred hi) cs' (S at_) k
        else None
    | [] => None
    end in
  let stop (_ : unit) := match lo with O => k cs at_ | S _ => None end in
  if greedy
  then match more tt with Some x => Some x | None => stop tt end
  else match stop tt with Some x => Some x | None => more tt end.

Fixpoint run (r : regex) (st : mstate) (k : mstate -> option mstate) : option mstate :=
  match r with
  | Eps => k st
  | Atom a =>
      match rest st with
      | c :: cs =>
          if atom_ok a c
          then k {| pos := S (pos st); rest := cs; caps := caps st |}
          else None
      | [] => None
      end
  | Rep a lo hi greedy =>
      rep greedy (atom_ok a) lo hi (rest st) (pos st)
          (fun cs p => k {| pos := p; rest := cs; caps := caps st |})
  | Seq r1 r2 => run r1 st (fun st' => run r2 st' k)
  | Group n r =>
      run r st (fun st' =>
        k {| pos := pos st'; rest := rest st';
             caps := (n, firstn (pos st' - pos st) (rest st)) :: caps st' |})
  | Bol => if Nat.eqb (pos st) 0 then k st else None
  | Eol =>
      match rest st with
      | [] => k st
      | [c] => if char_eqb c nl then k st else None
      | _ => None
      end
  end.

Definition match_at (r : regex) (at_ : nat) (cs : str) : option mstate :=
  run r {| pos := at_; rest := cs; caps := [] |} Some.

(** [re.match(r, s)]: a match that starts at the first character. *)
Definition re_match (r : regex) (s : str) : option mstate := match_at r 0 s.

(** The matches of [r] in the subject from left to right, without overlap,
    each with the position where it starts; [skip] counts the characters
    that still belong to the match before.  After a match the search goes
    on where the match ends (one character further when the match is
    empty, which no pattern of the source allows). *)
Fixpoint scan (r : regex) (at_ skip : nat) (cs : str) : list (nat * mstate) :=
  match (if Nat.eqb skip 0 then match_at r at_ cs else None) with
  | Some st =>
      (at_, st) ::
      match cs with
      | _ :: cs' => scan r (S at_) (Nat.pred (pos st - at_)) cs'
      | [] => []
      end
  | None =>
      match cs with
      | _ :: cs' => scan r (S at_) (Nat.pred skip) cs'
      | [] => []
      end
  end.

(** [re.search(r, s)]: the leftmost match. *)
Fixpoint search_from (r : regex) (at_ : nat) (cs : str) : option (nat * mstate) :=
  match match_at r at_ cs with
  | Some st => Some (at_, st)
  | None =>
      match cs with
      | _ :: cs' => search_from r (S at_) cs'
      | [] => None
      end
  end.

Definition re_search (r : regex) (s : str) : option (nat * mstate) := search_from r 0 s.

(** [m.group(0)] of a match found in [s] *)
Definition group0 (s : str) (m : nat * mstate) : str :=
  firstn (pos (snd m) - fst m) (skipn (fst m) s).

(** [re.findall(r, s)] *)
Definition re_findall (r : regex) (s : str) : list mstate := map snd (scan r 0 0 s).

(** [re.sub(r, repl, s)]: the characters outside the matches are kept and
    every match is replaced by the expansion of the template. *)
Fixpoint sub_scan (r : regex) (repl : list tpl) (at_ skip : nat) (cs : str) : str :=
  match (if Nat.eqb skip 0 then match_at r at_ cs else None) with
  | Some st =>
      expand repl st ++
      match cs with
      | c :: cs' =>
          (if Nat.eqb (pos st - at_) 0 then [c] else []) ++
          sub_scan r repl (S at_) (Nat.pred (pos st - at_)) cs'
      | [] => []
      end
  | None =>
      match cs with
      | c :: cs' =>
          (if Nat.eqb skip 0 then [c] else []) ++
          sub_scan r repl (S at_) (Nat.pred skip) cs'
      | [] => []
      end
  end.

Definition re_sub (r : regex) (repl : list tpl) (s : str) : str := sub_scan r repl 0 0 s.

End Regex.

Definition is_some (A : Type) (o : option A) : bool :=
  match o with Some _ => true | None => false end.

Definition nonempty (s : str) : bool :=
  match s with [] => false | _ => true end.

(* ===================================================================== *)
(** * The slide cleaner *)
(* ===================================================================== *)

Record slide := { title : str; content : str; slide_num : Z }.

(** [r"\w+ \d+, \d{4} .+ \d+"], [r"^\d+$"], [r"Slide \d+"] *)
Definition header_patterns : list regex :=
  [ seq [plus (ACls Word); lit " "; plus (ACls Digit); lit ", ";
         Rep (ACls Digit) 4 (Some 4%nat) true; lit " "; plus ADot; lit " ";
         plus (ACls Digit)];
    seq [Bol; plus (ACls Digit); Eol];
    seq [lit "Slide "; plus (ACls Digit)] ].

Section Cleaner.
Context {U : UnicodeData}.

(** The [for pattern in header_patterns] loop: the body runs for the first
    pattern that matches the title and ends with [break]. *)
Fixpoint clean_loop (patterns : list regex) (t c : str) : str * str :=
  match patterns with
  | [] => (t, c)
  | pattern :: patterns' =>
      if is_some (re_match false pattern t) then
        let content_lines := split nl c in
        match content_lines with
        | line0 :: lines =>
            if nonempty (strip line0)
            then (strip line0, strip (join [nl] lines))
            else (t, c)
        | [] => (t, c)
        end
      else clean_loop patterns' t c
  end.

Definition clean_slide_content (s : slide) : slide :=
  let (t, c) := clean_loop header_patterns (title s) (content s) in
  {| title := t; content := c; slide_num := slide_num s |}.

(** The title is a boilerplate header: one of the patterns matches it. *)
Definition matches_header (t : str) : bool :=
  existsb (fun pattern => is_some (re_match false pattern t)) header_patterns.

End Cleaner.

(** The first line of a text and the lines after it. *)
Definition first_line (c : str) : str := hd [] (split nl c).
Definition other_lines (c : str) : list str := tl (split nl c).

(** The words of the specification: the first line of the content that is
    not empty. *)
Definition first_nonempty_line (c : str) : option str :=
  find nonempty (split nl c).

(* ===================================================================== *)
(** * Exceptions and values *)
(* ===================================================================== *)

Inductive exn :=
| JSONDecodeError        (* json.loads on text that is not JSON *)
| RecursionError         (* json.loads on nesting that is too deep *)
| AttributeError
| TypeError
| KeyError (key : str)
| ValueError (msg : str)
| ClientError.           (* whatever the completion client raises *)

Inductive result (A : Type) :=
| Ok (a : A)
| Raise (e : exn).
Arguments Ok {A} a.
Arguments Raise {A} e.

(** What [json.loads] returns.  A [float] is kept as the text it is read
    from; a [dict] keeps its keys in the order of their first insertion. *)
#[warnings="-register-all"]
Inductive json :=
| JNull
| JBool (b : bool)
| JInt (z : Z)
| JFloat (lexeme : str)
| JStr (s : str)
| JList (items : list json)
| JDict (items : list (str * json)).

(** [d[k] = v] *)
Fixpoint dict_set (k : str) (v : json) (d : list (str * json)) : list (str * json) :=
  match d with
  | [] => [(k, v)]
  | (k', v') :: d' =>
      if str_eqb k' k then (k', v) :: d' else (k', v') :: dict_set k v d'
  end.

(** [d.get(k)] *)
Fixpoint dict_get (k : str) (d : list (str * json)) : option json :=
  match d with
  | [] => None
  | (k', v') :: d' => if str_eqb k' k then Some v' else dict_get k d'
  end.

(** [dict(pairs)] *)
Definition dict_of_pairs (pairs : list (str * json)) : list (str * json) :=
  fold_left (fun d kv => dict_set (fst kv) (snd kv) d) pairs [].

(* ===================================================================== *)
(** * [json.loads]: the decoder of the standard library *)
(* ===================================================================== *)

Definition ch (a : ascii) : char := N_of_ascii a.
Arguments ch a%_char.

Definition is_json_ws (c : char) : bool :=
  (c =? 32) || (c =? 9) || (c =? 10) || (c =? 13).

Fixpoint skip_ws (s : str) : str :=
  match s with
  | c :: s' => if is_json_ws c then skip_ws s' else s
  | [] => []
  end.

Fixpoint starts_with (p s : str) : bool :=
  match p, s with
  | [], _ => true
  | x :: p', y :: s' => char_eqb x y && starts_with p' s'
  | _ :: _, [] => false
  end.

Definition is_digit (c : char) : bool := in_range 48 57 c.

Definition hex_val (c : char) : option N :=
  if in_range 48 57 c then Some (c - 48)
  else if in_range 97 102 c then Some (c - 87)
  else if in_range 65 70 c then Some (c - 55)
  else None.

(** The value of the four hexadecimal digits that [s] starts with. *)
Definition hex4 (s : str) : option N :=
  match s with
  | a :: b :: c :: d :: _ =>
      match hex_val a, hex_val b, hex_val c, hex_val d with
      | Some x, Some y, Some z, Some w => Some (((x * 16 + y) * 16 + z) * 16 + w)
      | _, _, _, _ => None
      end
  | _ => None
  end.

Definition backslash (e : char) : option char :=
  if e =? dquote then Some dquote
  else if e =? ch "\" then Some (ch "\")
  else if e =? ch "/" then Some (ch "/")
  else if e =? ch "b" then Some 8
  else if e =? ch "f" then Some 12
  else if e =? ch "n" then Some 10
  else if e =? ch "r" then Some 13
  else if e =? ch "t" then Some 9
  else None.

(** The escape that follows a backslash: the character it stands for and
    the number of characters it takes.  A high surrogate followed by the
    escape of a low surrogate is one character. *)
Definition escape (s : str) : option (char * nat) :=
  match s with
  | [] => None
  | e :: s' =>
      if e =? ch "u" then
        match hex4 s' with
        | None => None
        | Some uni =>
            if in_range 55296 56319 uni && starts_with (py "\u") (skipn 4 s') then
              match hex4 (skipn 6 s') with
              | None => None
              | Some uni2 =>
                  if in_range 56320 57343 uni2
                  then Some (65536 + ((uni - 55296) * 1024 + (uni2 - 56320)), 11%nat)
                  else Some (uni, 5%nat)
              end
            else Some (uni, 5%nat)
        end
      else option_map (fun c => (c, 1%nat)) (backslash e)
  end.

(** [scanstring], strict: from just after the opening quote to the closing
    one; a control character in the string is an error.  [skip] counts the
    characters of an escape that are still to be passed. *)
Fixpoint scanstring (skip : nat) (s : str) : option (str * str) :=
  match s with
  | [] => None
  | c :: s' =>
      match skip with
      | S n => scanstring n s'
      | O =>
          if c =? dquote then Some ([], s')
          else if c =? ch "\" then
            match escape s' with
            | None => None
            | Some (x, n) =>
                option_map (fun vr => (x :: fst vr, snd vr)) (scanstring n s')
            end
          else if c <? 32 then None
          else option_map (fun vr => (c :: fst vr, snd vr)) (scanstring 0 s')
      end
  end.

Fixpoint span_digits (s : str) : str * str :=
  match s with
  | c :: s' =>
      if is_digit c then let (d, r) := span_digits s' in (c :: d, r) else ([], s)
  | [] => ([], [])
  end.

Definition int_of_digits (d : str) : Z :=
  fold_left (fun acc c => (acc * 10 + Z.of_N (c - 48))%Z) d 0%Z.

(** The number at the start of [s] as the decoder reads it: an optional
    minus sign, then 0 or a digit from 1 to 9 followed by digits; then, if
    present, a point followed by digits; then, if present, e or E, an
    optional sign and digits.  With a fraction or an exponent it is a
    [float], else an [int]. *)
Definition opt_minus (s : str) : bool * str :=
  match s with
  | c :: s' => if c =? ch "-" then (true, s') else (false, s)
  | [] => (false, s)
  end.

Definition int_part (s : str) : option (str * str) :=
  match s with
  | c :: s' =>
      if c =? ch "0" then Some ([c], s')
      else if is_digit c then Some (span_digits s)
      else None
  | [] => None
  end.

Definition frac_part (s : str) : str * str :=
  match s with
  | c :: s' =>
      if c =? ch "." then
        match span_digits s' with
        | ([], _) => ([], s)
        | (d, r) => (c :: d, r)
        end
      else ([], s)
  | [] => ([], s)
  end.

Definition opt_sign (s : str) : str * str :=
  match s with
  | x :: t => if (x =? ch "-") || (x =? ch "+") then ([x], t) else ([], s)
  | [] => ([], s)
  end.

Definition exp_part (s : str) : str * str :=
  match s with
  | c :: s' =>
      if (c =? ch "e") || (c =? ch "E") then
        let (sign, s'') := opt_sign s' in
        match span_digits s'' with
        | ([], _) => ([], s)
        | (d, r) => (c :: sign ++ d, r)
        end
      else ([], s)
  | [] => ([], s)
  end.

(** The outcome of reading one item: what is read and the text left, or
    the exception raised, or the end of the bound on the steps. *)
Inductive scanned (A : Type) :=
| Got (a : A) (left : str)
| Fails (e : exn)
| NoFuel.
Arguments Got {A} a left.
Arguments Fails {A} e.
Arguments NoFuel {A}.

Definition Bad {A : Type} : scanned A := Fails JSONDecodeError.

Definition constant (name : string) (v : json) (s : str) : scanned json :=
  if starts_with (py name) s then Got v (skipn (String.length name) s) else Bad.

Section Decoder.
Context {Lim : Limits}.

(** [int(text)] for the digits of an integer of the response. *)
Definition parse_int (neg : bool) (digits : str) : result json :=
  if Nat.ltb 0 int_max_str_digits && Nat.ltb int_max_str_digits (length digits)
  then Raise (ValueError
         (py "Exceeds the limit (" ++ str_of_int (Z.of_nat int_max_str_digits)
          ++ py " digits) for integer string conversion: value has "
          ++ str_of_int (Z.of_nat (length digits))
          ++ py " digits; use sys.set_int_max_str_digits() to increase the limit"))
  else Ok (JInt (if neg then - int_of_digits digits else int_of_digits digits)).

Definition scan_number (s : str) : option (result json * str) :=
  let (neg, s1) := opt_minus s in
  match int_part s1 with
  | None => None
  | Some (digits, s2) =>
      let (frac, s3) := frac_part s2 in
      let (exp, s4) := exp_part s3 in
      let sign := if neg then [ch "-"] else [] in
      match frac, exp with
      | [], [] => Some (parse_int neg digits, s4)
      | _, _ => Some (Ok (JFloat (sign ++ digits ++ frac ++ exp)), s4)
      end
  end.

(** [scan_once], [JSONArray] and [JSONObject] of the decoder.
    [array_items] starts at the first item of an array that is not empty,
    [object_items] just after the opening quote of a key.  [depth] is the
    nesting that may still be entered. *)
Fixpoint scan_once (fuel depth : nat) (s : str) {struct fuel} : scanned json :=
  match fuel with
  | O => NoFuel
  | S fuel' =>
      match s with
      | [] => Bad
      | c :: s' =>
          if c =? dquote then
            match scanstring 0 s' with
            | Some (v, r) => Got (JStr v) r
            | None => Bad
            end
          else if c =? ch "{" then
            match depth with
            | O => Fails RecursionError
            | S depth' =>
                match skip_ws s' with
                | x :: r =>
                    if x =? ch "}" then Got (JDict []) r
                    else if x =? dquote then
                      match object_items fuel' depth' r with
                      | Got pairs r' => Got (JDict (dict_of_pairs pairs)) r'
                      | Fails e => Fails e
                      | NoFuel => NoFuel
                      end
                    else Bad
                | [] => Bad
                end
            end
          else if c =? ch "[" then
            match depth with
            | O => Fails RecursionError
            | S depth' =>
                match skip_ws s' with
                | x :: r =>
                    if x =? ch "]" then Got (JList []) r
                    else
                      match array_items fuel' depth' (x :: r) with
                      | Got values r' => Got (JList values) r'
                      | Fails e => Fails e
                      | NoFuel => NoFuel
                      end
                | [] => Bad
                end
            end
          else if c =? ch "n" then constant "null" JNull s
          else if c =? ch "t" then constant "true" (JBool true) s
          else if c =? ch "f" then constant "false" (JBool false) s
          else
            match scan_number s with
            | Some (Ok v, r) => Got v r
            | Some (Raise e, _) => Fails e
            | None =>
                if c =? ch "N" then constant "NaN" (JFloat (py "NaN")) s
                else if c =? ch "I" then constant "Infinity" (JFloat (py "Infinity")) s
                else if c =? ch "-" then constant "-Infinity" (JFloat (py "-Infinity")) s
                else Bad
            end
      end
  end

with array_items (fuel depth : nat) (s : str) {struct fuel} : scanned (list json) :=
  match fuel with
  | O => NoFuel
  | S fuel' =>
      match scan_once fuel' depth s with
      | Got v r =>
          match skip_ws r with
          | x :: r' =>
              if x =? ch "]" then Got [v] r'
              else if x =? ch "," then
                match array_items fuel' depth (skip_ws r') with
                | Got vs r'' => Got (v :: vs) r''
                | Fails e => Fails e
                | NoFuel => NoFuel
                end
              else Bad
          | [] => Bad
          end
      | Fails e => Fails e
      | NoFuel => NoFuel
      end
  end

with object_items (fuel depth : nat) (s : str) {struct fuel}
    : scanned (list (str * json)) :=
  match fuel with
  | O => NoFuel
  | S fuel' =>
      match scanstring 0 s with
      | None => Bad
      | Some (key, r) =>
          match skip_ws r with
          | x :: r1 =>
              if x =? ch ":" then
                match scan_once fuel' depth (skip_ws r1) with
                | Got v r2 =>
                    match skip_ws r2 with
                    | y :: r3 =>
                        if y =? ch "}" then Got [(key, v)] r3
                        else if y =? ch "," then
                          match skip_ws r3 with
                          | z :: r4 =>
                              if z =? dquote then
                                match object_items fuel' depth r4 with
                                | Got ps r5 => Got ((key, v) :: ps) r5
                                | Fails e => Fails e
                                | NoFuel => NoFuel
                                end
                              else Bad
                          | [] => Bad
                          end
                        else Bad
                    | [] => Bad
                    end
                | Fails e => Fails e
                | NoFuel => NoFuel
                end
              else Bad
          | [] => Bad
          end
      end
  end.

(** [json.loads(s)] for a [str]: one value with white space around it.
    The bound on the steps is large enough never to be reached (lemma
    [scan_fuel] below), so [RecursionError] only comes from the nesting. *)
Definition json_loads (s : str) : result json :=
  if starts_with [65279] s then Raise JSONDecodeError
  else
    let s0 := skip_ws s in
    match scan_once (2 * length s0 + 1) recursion_depth s0 with
    | Got v r =>
        match skip_ws r with
        | [] => Ok v
        | _ :: _ => Raise JSONDecodeError
        end
    | Fails e => Raise e
    | NoFuel => Raise RecursionError
    end.

End Decoder.

(** The two exceptions of the decoder that come from the limits of the
    interpreter, and all its exceptions. *)
Definition limit_exn (e : exn) : Prop :=
  e = RecursionError \/ exists msg, e = ValueError msg.

Definition decoder_exn (e : exn) : Prop :=
  e = JSONDecodeError \/ limit_exn e.

(** The text is too short for an integer over the limit of digits. *)
Definition few_digits {Lim : Limits} (s : str) : Prop :=
  (int_max_str_digits = 0 \/ length s <= int_max_str_digits)%nat.

(* ===================================================================== *)
(** * The response recovery chain of [_ask_ai_for_cards] *)
(* ===================================================================== *)

(** [try: body  except <caught>: handler]: an exception that the clause
    does not name goes on outward. *)
Definition try_except (A : Type) (body : result A) (caught : exn -> bool)
    (handler : unit -> result A) : result A :=
  match body with
  | Ok a => Ok a
  | Raise e => if caught e then handler tt else Raise e
  end.

Definition is_decode_error (e : exn) : bool :=
  match e with JSONDecodeError => true | _ => false end.

Definition is_decode_or_attribute_error (e : exn) : bool :=
  match e with JSONDecodeError | AttributeError => true | _ => false end.

(** The two quote characters: the class written with a double and a single
    quote between brackets. *)
Definition quote : atom := ASet false [dquote; squote] [].
Definition space_or_quote : atom := ASet false [dquote; squote] [Space].

(** Stage 2, the search: a bracket, white space, a brace, anything, a
    brace, white space, a bracket; with re.DOTALL. *)
Definition json_array_pattern : regex :=
  seq [lit "["; star (ACls Space); lit "{"; star ADot; lit "}";
       star (ACls Space); lit "]"].

(** Stage 2, the first repair: [(\w+):] is replaced by the group between
    double quotes and a colon. *)
Definition bare_key_pattern : regex := seq [Group 1 (plus (ACls Word)); lit ":"].
Definition bare_key_repl : list tpl := [TLit [dquote]; TGroup 1; TLit [dquote; ch ":"]].

(** Stage 2, the second repair: a colon, white space and a double-quoted
    text without double quotes is replaced by a colon, one space and the
    quoted text. *)
Definition value_quote_pattern : regex :=
  seq [lit ":"; star (ACls Space); Atom (AChar dquote);
       Group 1 (star (ASet true [dquote] [])); Atom (AChar dquote)].
Definition value_quote_repl : list tpl :=
  [TLit [ch ":"; ch " "; dquote]; TGroup 1; TLit [dquote]].

(** Stage 3: an optional quote, question, an optional quote, a colon with
    white space around it, a quote, group 1 (as short as possible), a
    quote, a comma with white space around it, then the same for answer
    with group 2; with re.DOTALL. *)
Definition qa_pattern : regex :=
  seq [opt quote; lit "question"; opt quote; star (ACls Space); lit ":";
       star (ACls Space); Atom quote; Group 1 (lazy_star ADot); Atom quote;
       star (ACls Space); lit ","; star (ACls Space);
       opt quote; lit "answer"; opt quote; star (ACls Space); lit ":";
       star (ACls Space); Atom quote; Group 2 (lazy_star ADot); Atom quote].

(** Stage 4: question (answer), an optional quote, a colon, white space
    and quotes, group 1 (at least one character, as short as possible),
    white space and quotes, a comma (a closing brace or a comma). *)
Definition q_block_pattern : regex :=
  seq [lit "question"; opt quote; lit ":"; star space_or_quote;
       Group 1 (lazy_plus ADot); star space_or_quote; lit ","].
Definition a_block_pattern : regex :=
  seq [lit "answer"; opt quote; lit ":"; star space_or_quote;
       Group 1 (lazy_plus ADot); star space_or_quote;
       Atom (ASet false [ch "}"; ch ","] [])].

(** The dictionary with the keys question and answer. *)
Definition qa_card (q a : json) : json :=
  JDict [(py "question", q); (py "answer", a)].

(** A pair of a question text and an answer text. *)
Definition is_qa_pair (card : json) : Prop :=
  exists q a : str, card = qa_card (JStr q) (JStr a).

Section Recovery.
Context {U : UnicodeData} {Lim : Limits}.

(** The quote repair of stage 2. *)
Definition repair_quotes (json_str : str) : str :=
  re_sub false value_quote_pattern value_quote_repl
    (re_sub false bare_key_pattern bare_key_repl json_str).

(** Stage 2 (the inner [try]): the value returned from inside it, or
    nothing when there is no match or the exception is passed over. *)
Definition embedded_json_array (cards_text : str) : result (option json) :=
  try_except
    (match re_search true json_array_pattern cards_text with
     | Some json_pattern =>
         let json_str := group0 cards_text json_pattern in
         match json_loads (repair_quotes json_str) with
         | Ok cards => Ok (Some cards)
         | Raise e => Raise e
         end
     | None => Ok None
     end)
    is_decode_or_attribute_error
    (fun _ => Ok None).

(** Stage 3: the pairs that [qa_pattern] finds, both parts stripped. *)
Definition qa_pairs (cards_text : str) : list json :=
  map (fun m => qa_card (JStr (strip (group 1 m))) (JStr (strip (group 2 m))))
      (re_findall true qa_pattern cards_text).

Definition strip_quotes (s : str) : str := strip (re_sub false (Atom quote) [] s).

(** Stage 4: the question fragments and the answer fragments, paired by
    position up to the shorter of the two lists. *)
Definition lenient_pairs (cards_text : str) : list json :=
  let q_blocks := map (group 1) (re_findall false q_block_pattern cards_text) in
  let a_blocks := map (group 1) (re_findall false a_block_pattern cards_text) in
  map (fun qa => qa_card (JStr (strip_quotes (fst qa))) (JStr (strip_quotes (snd qa))))
      (combine q_blocks a_blocks).

(** Stages 3 to 5, the manual extraction. *)
Definition manual_extraction (cards_text slide_text : str) : list json :=
  let cards := qa_pairs cards_text in
  let cards := match cards with [] => lenient_pairs cards_text | _ => cards end in
  match cards with
  | [] => [qa_card (JStr (py "Review this slide")) (JStr slide_text)]
  | _ => cards
  end.

(** The body of [except json.JSONDecodeError:]. *)
Definition decode_error_handler (cards_text slide_text : str) : result json :=
  match embedded_json_array cards_text with
  | Ok (Some cards) => Ok cards
  | Ok None => Ok (JList (manual_extraction cards_text slide_text))
  | Raise e => Raise e
  end.

(** The outer [try] of the source with any handler in the place of its
    [except] clause. *)
Definition recover_with (handler : str -> str -> result json)
    (cards_text slide_text : str) : result json :=
  try_except (json_loads cards_text) is_decode_error
             (fun _ => handler cards_text slide_text).

(** The part of [_ask_ai_for_cards] after the response has come in. *)
Definition recover_cards : str -> str -> result json :=
  recover_with decode_error_handler.

End Recovery.

(* ===================================================================== *)
(** * The world outside: client, PDF reader, random source, file system *)
(* ===================================================================== *)

(** A note of the deck: its fields in the order of the card model
    (Question, Answer, Slide, Context). *)
Record note := { fields : list json }.

Record deck := { deck_id : Z; deck_name : str; notes : list note }.

Record env := {
  (** [self.client.chat_completion]: the reply to the call number [n]
      (from 0), whose request carries [slide_text] in a fixed prompt, or
      the exception that the call raises *)
  chat_completion : nat -> str -> result str;
  (** [pymupdf.open(path)] and [page.get_text()] of every page *)
  pdf_pages : str -> result (list str);
  (** the draw of [random.randrange(1 << 30, 1 << 31)] for the deck *)
  random_deck_id : Z;
  (** [os.path.expanduser] of the home directory *)
  home : str;
  (** [genanki.Package(deck).write_to_file(path)]: the exception it
      raises, if it raises one *)
  package_write : str -> deck -> option exn
}.

(** What the program has done to the world: the slide texts it has sent
    to the client, oldest first, and the packages it has written. *)
Record world := { calls : list str; files : list (str * deck) }.

Definition log_call (slide_text : str) (w : world) : world :=
  {| calls := calls w ++ [slide_text]; files := files w |}.

(** The world after [k] calls with the same slide text. *)
Definition log_calls (slide_text : str) (k : nat) (w : world) : world :=
  {| calls := calls w ++ repeat slide_text k; files := files w |}.

Definition write_file (path : str) (d : deck) (w : world) : world :=
  {| calls := calls w; files := files w ++ [(path, d)] |}.

(* ===================================================================== *)
(** * The card generator *)
(* ===================================================================== *)

(** [card['slide'] = label; card['context'] = context]: item assignment
    works on a dictionary only. *)
Definition stamp (label context : str) (card : json) : result json :=
  match card with
  | JDict d =>
      Ok (JDict (dict_set (py "context") (JStr context)
                          (dict_set (py "slide") (JStr label) d)))
  | _ => Raise TypeError
  end.

(** [for card in cards: ...] over the items of a list *)
Fixpoint stamp_all (label context : str) (cards : list json) : result (list json) :=
  match cards with
  | [] => Ok []
  | card :: cards' =>
      match stamp label context card with
      | Ok card' =>
          match stamp_all label context cards' with
          | Ok rest => Ok (card' :: rest)
          | Raise e => Raise e
          end
      | Raise e => Raise e
      end
  end.

(** The loop over whatever the recovery returned, and what
    [all_cards.extend(cards)] then adds: the items of a list; nothing for
    an empty dictionary or string; the items of any other dictionary or
    string are strings, which take no item assignment; and the other
    values cannot be iterated over. *)
Definition stamp_cards (label context : str) (cards : json) : result (list json) :=
  match cards with
  | JList items => stamp_all label context items
  | JDict [] => Ok []
  | JStr [] => Ok []
  | _ => Raise TypeError
  end.

Definition has_meaningful_content (s : slide) : bool :=
  Nat.ltb 3 (length (title s)) || Nat.ltb 10 (length (content s)).

Definition slide_label (s : slide) : str := py "Slide " ++ str_of_int (slide_num s).

Definition full_text_of (s : slide) : str :=
  py "Title: " ++ title s ++ [nl; nl] ++ py "Content: " ++ content s.

(** The card made when every attempt has failed. *)
Definition fallback_card (s : slide) : json :=
  JDict [(py "question", JStr (py "Explain the concept of: " ++ title s));
         (py "answer", JStr (if nonempty (content s) then content s
                             else py "Review the slide content."));
         (py "slide", JStr (slide_label s));
         (py "context", JStr (py "Auto-generated (DeepSeek API failed)"))].

Section Generator.
Context {U : UnicodeData} {Lim : Limits}.
Variable E : env.

(** [_ask_ai_for_cards]: one call to the client, then the recovery. *)
Definition _ask_ai_for_cards (slide_text : str) (w : world) : result json * world :=
  match chat_completion E (length (calls w)) slide_text with
  | Ok response => (recover_cards response slide_text, log_call slide_text w)
  | Raise e => (Raise e, log_call slide_text w)
  end.

(** One pass through the body of the [while] loop: the cards to add, or
    the exception that [except Exception] receives. *)
Definition attempt (cleaned_slide : slide) (w : world) : result (list json) * world :=
  let (r, w') := _ask_ai_for_cards (full_text_of cleaned_slide) w in
  match r with
  | Ok cards =>
      (stamp_cards (slide_label cleaned_slide) (title cleaned_slide) cards, w')
  | Raise e => (Raise e, w')
  end.

(** [while retry_count < max_retries and not success], with [retries_left]
    for [max_retries - retry_count]: the cards of the first attempt that
    succeeds, if any does. *)
Fixpoint attempts (retries_left : nat) (cleaned_slide : slide) (w : world)
    : option (list json) * world :=
  match retries_left with
  | O => (None, w)
  | S retries_left' =>
      match attempt cleaned_slide w with
      | (Ok cards, w') => (Some cards, w')
      | (Raise _, w') => attempts retries_left' cleaned_slide w'
      end
  end.

Definition max_retries : nat := 3.

(** The body of [for slide in slides_content]: the cards that the slide
    adds to [all_cards]. *)
Definition slide_cards (s : slide) (w : world) : list json * world :=
  let cleaned_slide := clean_slide_content s in
  if negb (has_meaningful_content cleaned_slide) then ([], w)
  else
    match attempts max_retries cleaned_slide w with
    | (Some cards, w') => (cards, w')
    | (None, w') =>
        if nonempty (title cleaned_slide)
        then ([fallback_card cleaned_slide], w')
        else ([], w')
    end.

(** The loop, from a given [all_cards]. *)
Fixpoint generate_loop (slides_content : list slide) (all_cards : list json)
    (w : world) : list json * world :=
  match slides_content with
  | [] => (all_cards, w)
  | s :: slides' =>
      let (cards, w') := slide_cards s w in
      generate_loop slides' (all_cards ++ cards) w'
  end.

Definition generate_flashcards_with_deepseek (slides_content : list slide)
    (w : world) : list json * world :=
  generate_loop slides_content [] w.

End Generator.

(* ===================================================================== *)
(** * The deck builder *)
(* ===================================================================== *)

(** The card carries the label: it is a dictionary whose item slide is
    the text [label]. *)
Definition has_label (label : str) (card : json) : Prop :=
  exists d, card = JDict d /\ dict_get (py "slide") d = Some (JStr label).

(** The card is a dictionary with the items question, answer and slide. *)
Definition has_card_keys (card : json) : Prop :=
  exists d, card = JDict d /\
            dict_get (py "question") d <> None /\
            dict_get (py "answer") d <> None /\
            dict_get (py "slide") d <> None.

(** [card[key]] *)
Definition card_item (key : string) (card : json) : result json :=
  match card with
  | JDict d =>
      match dict_get (py key) d with
      | Some v => Ok v
      | None => Raise (KeyError (py key))
      end
  | _ => Raise TypeError
  end.

(** [card.get('context', '')], evaluated after the three items above, so
    on a dictionary. *)
Definition card_context (card : json) : json :=
  match card with
  | JDict d =>
      match dict_get (py "context") d with
      | Some v => v
      | None => JStr []
      end
  | _ => JStr []
  end.

Definition note_of_card (card : json) : result note :=
  match card_item "question" card with
  | Raise e => Raise e
  | Ok q =>
      match card_item "answer" card with
      | Raise e => Raise e
      | Ok a =>
          match card_item "slide" card with
          | Raise e => Raise e
          | Ok s => Ok {| fields := [q; a; s; card_context card] |}
          end
      end
  end.

(** What a note shows of its card: the items question, answer and slide,
    then the context, empty when the card has none. *)
Definition shows (card : json) (n : note) : Prop :=
  exists q a s,
    card_item "question" card = Ok q /\
    card_item "answer" card = Ok a /\
    card_item "slide" card = Ok s /\
    fields n = [q; a; s; card_context card].

(** The [for card in cards] loop of [create_anki_deck], adding to the
    notes of the deck. *)
Fixpoint add_notes (cards : list json) (d : deck) : result deck :=
  match cards with
  | [] => Ok d
  | card :: cards' =>
      match note_of_card card with
      | Ok n =>
          add_notes cards'
            {| deck_id := deck_id d; deck_name := deck_name d;
               notes := notes d ++ [n] |}
      | Raise e => Raise e
      end
  end.

Definition create_anki_deck (E : env) (cards : list json) (name : str) : result deck :=
  add_notes cards {| deck_id := random_deck_id E; deck_name := name; notes := [] |}.

(* ===================================================================== *)
(** * Paths ([os.path] on a POSIX system) *)
(* ===================================================================== *)

Fixpoint rfind_from (c : char) (s : str) (i last : Z) : Z :=
  match s with
  | [] => last
  | x :: s' => rfind_from c s' (i + 1)%Z (if char_eqb x c then i else last)
  end.

(** [s.rfind(c)]: the index of the last [c] in [s], or -1. *)
Definition rfind (c : char) (s : str) : Z := rfind_from c s 0%Z (-1)%Z.

(** [s[i:j]] for indices that are not negative *)
Definition slice (s : str) (i j : Z) : str :=
  firstn (Z.to_nat (j - i)) (skipn (Z.to_nat i) s).

(** [os.path.splitext]: the extension starts at the last dot of the last
    component, unless only dots come before it there. *)
Definition splitext (p : str) : str * str :=
  let sepIndex := rfind (ch "/") p in
  let dotIndex := rfind (ch ".") p in
  if (sepIndex <? dotIndex)%Z
     && existsb (fun x => negb (char_eqb x (ch ".")))
                (slice p (sepIndex + 1) dotIndex)
  then (firstn (Z.to_nat dotIndex) p, skipn (Z.to_nat dotIndex) p)
  else (p, []).

(** [os.path.basename] *)
Definition basename (p : str) : str := skipn (Z.to_nat (rfind (ch "/") p + 1)) p.

(** [os.path.join(a, b)] *)
Definition path_join (a b : str) : str :=
  if starts_with [ch "/"] b then b
  else if negb (nonempty a) || starts_with [ch "/"] (rev a) then a ++ b
  else a ++ [ch "/"] ++ b.

(* ===================================================================== *)
(** * The pipeline *)
(* ===================================================================== *)

Section Pipeline.
Context {U : UnicodeData} {Lim : Limits}.
Variable E : env.

(** The slide of one page: the first line that is not blank is the title
    and the other lines that are not blank are the content. *)
Definition slide_of_page (i : Z) (text : str) : slide :=
  let lines := split nl text in
  let clean_lines := filter (fun line => nonempty (strip line)) lines in
  match clean_lines with
  | [] => {| title := []; content := []; slide_num := i |}
  | line0 :: lines' =>
      {| title := strip line0; content := strip (join [nl] lines'); slide_num := i |}
  end.

Fixpoint slides_of_pages (i : Z) (pages : list str) : list slide :=
  match pages with
  | [] => []
  | text :: pages' => slide_of_page i text :: slides_of_pages (i + 1)%Z pages'
  end.

(** [extract_from_pdf], the PyMuPDF path; pages are numbered from 1. *)
Definition extract_from_pdf (pdf_path : str) : result (list slide) :=
  match pdf_pages E pdf_path with
  | Ok pages => Ok (slides_of_pages 1%Z pages)
  | Raise e => Raise e
  end.

(** [process_file] without progress callback: the number of cards and the
    path of the package, or the exception that comes out. *)
Definition process_file (file_path name : str) (w : world)
    : result (nat * str) * world :=
  let file_extension := lower (snd (splitext file_path)) in
  if str_eqb file_extension (py ".pdf") then
    match extract_from_pdf file_path with
    | Raise e => (Raise e, w)
    | Ok slides_content =>
        let (cards, w1) := generate_flashcards_with_deepseek E slides_content w in
        match create_anki_deck E cards name with
        | Raise e => (Raise e, w1)
        | Ok d =>
            let base_name := fst (splitext (basename file_path)) in
            let downloads_folder := path_join (home E) (py "Downloads") in
            let output_path :=
              path_join downloads_folder (base_name ++ py "_flashcards.apkg") in
            match package_write E output_path d with
            | Some e => (Raise e, w1)
            | None => (Ok (length cards, output_path), write_file output_path d w1)
            end
        end
    end
  else (Raise (ValueError (py "Unsupported file format: " ++ file_extension)), w).

End Pipeline.

(* ===================================================================== *)
(** * Example data *)
(* ===================================================================== *)

(** Tables that know nothing beyond ASCII, to evaluate the functions on
    ASCII text. *)
Definition ascii_tables : UnicodeData :=
  {| uni_isspace := fun _ => false; uni_isalnum := fun _ => false;
     uni_isdecimal := fun _ => false; uni_lower := fun s => s |}.

(** The limits of an interpreter that is started without options; the
    depth is the recursion limit itself, more than a call can have left. *)
Definition default_limits : Limits :=
  {| recursion_depth := 1000; int_max_str_digits := 4300 |}.

Definition new_world : world := {| calls := []; files := [] |}.

(** A client that raises at every call, and one that answers its first
    call with [reply] and raises afterwards. *)
Definition failing_client : nat -> str -> result str :=
  fun _ _ => Raise ClientError.

Definition replies_once (reply : str) : nat -> str -> result str :=
  fun n _ => match n with O => Ok reply | S _ => Raise ClientError end.

Definition env_with (client : nat -> str -> result str) (pages : list str) : env :=
  {| chat_completion := client;
     pdf_pages := fun _ => Ok pages;
     random_deck_id := 1073741824;
     home := py "/home/user";
     package_write := fun _ _ => None |}.

Definition two_cards_reply : str :=
  pyq "[{'question': 'What is a graph?', 'answer': 'Nodes and edges'}, {'question': 'What is a tree?', 'answer': 'A connected graph: no cycle'}]".

Definition graphs_slide : slide :=
  {| title := py "Graphs"; content := py "Nodes and edges"; slide_num := 1 |}.

Definition trees_slide : slide :=
  {| title := py "Trees"; content := []; slide_num := 2 |}.

Definition untitled_slide : slide :=
  {| title := []; content := py "Shortest paths"; slide_num := 3 |}.

Definition numbered_slide : slide :=
  {| title := py "7"; content := py " 8 " ++ [nl] ++ py "9" ++ [nl] ++ py "Heaps "; slide_num := 7 |}.

Definition blank_first_line_slide : slide :=
  {| title := py "7"; content := [nl] ++ py "Graph search"; slide_num := 7 |}.

Definition padded_slide : slide :=
  {| title := py "Slide 7"; content := py "Heaps  " ++ [nl] ++ py "are trees";
     slide_num := 7 |}.

(* ===================================================================== *)
(** * More of the source: the second extraction path *)
(* ===================================================================== *)

Section Fallback.
Context {U : UnicodeData}.

(** The slide of one page on the PyPDF2 path of [extract_from_pdf] (the
    handler of [ImportError]): the first line is the title, blank or not,
    and all the other lines are the content. *)
Definition slide_of_page_pypdf2 (i : Z) (text : str) : slide :=
  let lines := split nl text in
  match lines with
  | [] => {| title := []; content := []; slide_num := i |}
  | line0 :: lines' =>
      {| title := strip line0; content := strip (join [nl] lines'); slide_num := i |}
  end.

(** A line with nothing but white space. *)
Definition blank (line : str) : bool := negb (nonempty (strip line)).

End Fallback.

(* ===================================================================== *)
(** * Cards, as the generator leaves them *)
(* ===================================================================== *)

(** [card.get(key)] on a dictionary. *)
Definition card_get (key : str) (card : json) : option json :=
  match card with
  | JDict d => dict_get key d
  | _ => None
  end.

Definition is_dict (card : json) : bool :=
  match card with JDict _ => true | _ => false end.

(** [card'] is [card] with the label and the context of a slide put in:
    its items slide and context are these two texts and every other item
    is as in [card]. *)
Definition stamped (label context : str) (card card' : json) : Prop :=
  is_dict card' = true /\
  card_get (py "slide") card' = Some (JStr label) /\
  card_get (py "context") card' = Some (JStr context) /\
  forall key, key <> py "slide" -> key <> py "context" ->
    card_get key card' = card_get key card.

(** The context of the card that stands for a slide whose attempts have
    all failed. *)
Definition failure_context : str := py "Auto-generated (DeepSeek API failed)".

(** The card has a question and an answer. *)
Definition has_question_and_answer (card : json) : Prop :=
  card_get (py "question") card <> None /\ card_get (py "answer") card <> None.

(** A pair whose question and whose answer are texts with the property [P]. *)
Definition pair_of (P : str -> Prop) (card : json) : Prop :=
  exists q a, card = qa_card (JStr q) (JStr a) /\ P q /\ P a.

Section Degraded.
Context {U : UnicodeData}.

(** What a slide adds when none of its attempts succeeds. *)
Definition fallback_cards_of (s : slide) : list json :=
  let c := clean_slide_content s in
  if has_meaningful_content c && nonempty (title c) then [fallback_card c] else [].

(** The slide passes the gate once it is cleaned. *)
Definition passes_gate (s : slide) : bool :=
  has_meaningful_content (clean_slide_content s).

End Degraded.

(* ===================================================================== *)
(** * More example data *)
(* ===================================================================== *)

(** A client that raises at its first call and answers the second, and
    one that gives the same answer at every call. *)
Definition replies_second (reply : str) : nat -> str -> result str :=
  fun n _ => match n with 1%nat => Ok reply | _ => Raise ClientError end.

Definition always_replies (reply : str) : nat -> str -> result str :=
  fun _ _ => Ok reply.

Definition two_pages : list str :=
  [py "Graphs" ++ [nl] ++ py "Nodes and edges"; py "Trees"].

(* ===================================================================== *)
(** * Properties of the library models *)
(* ===================================================================== *)

Lemma str_eqb_eq (a b : str) : str_eqb a b = true <-> a = b.
Proof.
  revert b; induction a as [|x a IH]; intros [|y b]; simpl; split;
    try congruence; try discriminate.
  - rewrite andb_true_iff. intros [Hc Hs].
    apply N.eqb_eq in Hc. apply IH in Hs. congruence.
  - intros E. injection E as -> ->.
    rewrite andb_true_iff. split; [apply N.eqb_refl | now apply IH].
Qed.

Lemma str_eqb_refl (a : str) : str_eqb a a = true.
Proof. now apply str_eqb_eq. Qed.

Lemma str_eqb_neq (a b : str) : str_eqb a b = false <-> a <> b.
Proof.
  split.
  - intros H E. apply str_eqb_eq in E. congruence.
  - intros H. destruct (str_eqb a b) eqn:E; [|reflexivity].
    apply str_eqb_eq in E. contradiction.
Qed.

Lemma split_not_nil (sep : char) (s : str) : split sep s <> [].
Proof.
  destruct s as [|c s]; simpl; [discriminate|].
  destruct (char_eqb c sep); [discriminate|].
  destruct (split sep s); discriminate.
Qed.

Lemma dict_get_set_same (k : str) (v : json) (d : list (str * json)) :
  dict_get k (dict_set k v d) = Some v.
Proof.
  induction d as [|[k' v'] d IH]; simpl.
  - now rewrite str_eqb_refl.
  - destruct (str_eqb k' k) eqn:E; simpl; rewrite E; [reflexivity | exact IH].
Qed.

Lemma dict_get_set_other (k k0 : str) (v : json) (d : list (str * json)) :
  k0 <> k -> dict_get k0 (dict_set k v d) = dict_get k0 d.
Proof.
  intros Hne. induction d as [|[k' v'] d IH]; simpl.
  - apply str_eqb_neq in Hne.
    destruct (str_eqb k k0) eqn:E; [|reflexivity].
    apply str_eqb_eq in E. subst. now rewrite str_eqb_refl in Hne.
  - destruct (str_eqb k' k) eqn:E; simpl.
    + apply str_eqb_eq in E. subst k'.
      destruct (str_eqb k k0) eqn:E0; [|reflexivity].
      apply str_eqb_eq in E0. congruence.
    + now rewrite IH.
Qed.

Section DecoderBounds.
Context {Lim : Limits}.
Local Open Scope nat_scope.

Lemma skip_ws_length (s : str) : length (skip_ws s) <= length s.
Proof.
  induction s as [|c s IH]; simpl; [lia|].
  destruct (is_json_ws c); simpl; lia.
Qed.

Lemma scanstring_shorter (s : str) :
  forall skip v r, scanstring skip s = Some (v, r) -> length r < length s.
Proof.
  induction s as [|c s IH]; intros skip v r H; simpl in H; [discriminate|].
  assert (Hrec : forall n w, option_map (fun vr : str * str => (w :: fst vr, snd vr))
                   (scanstring n s) = Some (v, r) -> length r < S (length s)).
  { intros n w E. destruct (scanstring n s) as [[v' r']|] eqn:Es; [|discriminate].
    simpl in E. injection E as Hv Hr; subst. apply IH in Es. simpl. lia. }
  destruct skip as [|n].
  - repeat match type of H with
           | (if ?b then _ else _) = _ => destruct b
           | match ?x with _ => _ end = _ => destruct x as [[? ?]|]
           end; try discriminate; eauto.
    injection H as Hv Hr; subst; simpl; lia.
  - apply IH in H. simpl. lia.
Qed.

Lemma span_digits_length (s : str) :
  length (snd (span_digits s)) <= length s.
Proof.
  induction s as [|c s IH]; simpl; [lia|].
  destruct (is_digit c); simpl; [|lia].
  destruct (span_digits s); simpl in *. lia.
Qed.

Lemma starts_with_length (p s : str) :
  starts_with p s = true -> length p <= length s.
Proof.
  revert s; induction p as [|x p IH]; intros [|y s]; simpl; try lia; try discriminate.
  rewrite andb_true_iff. intros [_ H]. apply IH in H. lia.
Qed.

Lemma constant_shorter (name : string) (v w : json) (s r : str) :
  name <> EmptyString -> constant name v s = Got w r -> length r < length s.
Proof.
  unfold constant. intros Hne H.
  destruct (starts_with (py name) s) eqn:E; [|discriminate].
  injection H as Hv Hr; subst. apply starts_with_length in E.
  rewrite length_skipn.
  assert (length (py name) = String.length name).
  { unfold py. rewrite length_map. clear. induction name; simpl; congruence. }
  destruct name; [congruence|]. simpl in *. lia.
Qed.

Lemma int_part_shorter (s d r : str) :
  int_part s = Some (d, r) -> length r < length s.
Proof.
  destruct s as [|c s]; simpl; [discriminate|].
  destruct (c =? _)%N.
  - intros H; injection H as Hd Hr; subst; lia.
  - destruct (is_digit c); [|discriminate].
    pose proof (span_digits_length s) as L.
    destruct (span_digits s) as [d' r']. simpl in L.
    intros H; injection H as Hd Hr; subst; lia.
Qed.

Lemma opt_minus_length (s : str) : length (snd (opt_minus s)) <= length s.
Proof. destruct s as [|c s]; simpl; [lia|]. destruct (c =? _)%N; simpl; lia. Qed.

Lemma opt_sign_length (s : str) : length (snd (opt_sign s)) <= length s.
Proof. destruct s as [|c s]; simpl; [lia|]. destruct (_ || _); simpl; lia. Qed.

Lemma frac_part_length (s : str) : length (snd (frac_part s)) <= length s.
Proof.
  destruct s as [|c s]; simpl; [lia|].
  destruct (c =? _)%N; simpl; [|lia].
  pose proof (span_digits_length s) as L.
  destruct (span_digits s) as [[|x d] r]; simpl in *; lia.
Qed.

Lemma exp_part_length (s : str) : length (snd (exp_part s)) <= length s.
Proof.
  destruct s as [|c s]; simpl; [lia|].
  destruct (_ || _); simpl; [|lia].
  pose proof (opt_sign_length s) as L1.
  destruct (opt_sign s) as [sg s'']. simpl in L1.
  pose proof (span_digits_length s'') as L2.
  destruct (span_digits s'') as [[|x d] r]; simpl in *; lia.
Qed.

Lemma scan_number_shorter (s : str) (v : result json) (r : str) :
  scan_number s = Some (v, r) -> length r < length s.
Proof.
  unfold scan_number.
  pose proof (opt_minus_length s) as L1.
  destruct (opt_minus s) as [neg s1]. simpl in L1.
  destruct (int_part s1) as [[digits s2]|] eqn:Ei; [|discriminate].
  apply int_part_shorter in Ei.
  pose proof (frac_part_length s2) as L3.
  destruct (frac_part s2) as [frac s3]. simpl in L3.
  pose proof (exp_part_length s3) as L4.
  destruct (exp_part s3) as [ex s4]. simpl in L4.
  destruct frac, ex; intros H; injection H as Hv Hr; subst; lia.
Qed.

(** Case analysis on the next test of a scanning function in [H]. *)
Ltac scan_case H IHs IHa IHo :=
  match type of H with
  | (if ?b then _ else _) = _ => destruct b
  | match ?d with O => _ | S _ => _ end = _ => is_var d; destruct d
  | match scanstring ?k ?x with _ => _ end = _ =>
      let E := fresh "E" in
      destruct (scanstring k x) as [[? ?]|] eqn:E;
      [apply scanstring_shorter in E|]
  | match skip_ws ?x with _ => _ end = _ =>
      let Lw := fresh "Lw" in
      pose proof (skip_ws_length x) as Lw;
      destruct (skip_ws x); cbn [length] in Lw
  | match object_items ?f ?d ?x with _ => _ end = _ =>
      let E := fresh "E" in
      destruct (object_items f d x) eqn:E; [apply IHo in E| |]
  | match array_items ?f ?d ?x with _ => _ end = _ =>
      let E := fresh "E" in
      try (match x with skip_ws ?y => pose proof (skip_ws_length y) end);
      destruct (array_items f d x) eqn:E; [apply IHa in E| |]
  | match scan_once ?f ?d ?x with _ => _ end = _ =>
      let E := fresh "E" in
      try (match x with skip_ws ?y => pose proof (skip_ws_length y) end);
      destruct (scan_once f d x) eqn:E; [apply IHs in E| |]
  | match scan_number ?x with _ => _ end = _ =>
      let E := fresh "E" in
      destruct (scan_number x) as [[[?|?] ?]|] eqn:E;
      [apply scan_number_shorter in E|apply scan_number_shorter in E|]
  end.

(** Reading an item takes at least one character. *)
Lemma scan_shorter (fuel : nat) :
  (forall depth s v r, scan_once fuel depth s = Got v r -> length r < length s) /\
  (forall depth s v r, array_items fuel depth s = Got v r -> length r < length s) /\
  (forall depth s v r, object_items fuel depth s = Got v r -> length r < length s).
Proof.
  induction fuel as [|fuel (IHs & IHa & IHo)];
    [repeat split; intros; discriminate|].
  repeat split; intros depth s v r H;
    cbn [scan_once array_items object_items] in H; unfold Bad in H.
  - destruct s as [|c s]; [discriminate|]. cbn [length].
    repeat scan_case H IHs IHa IHo;
      try (apply constant_shorter in H; [|discriminate]);
      try discriminate; try (injection H as Hv Hr; subst);
      cbn [length] in *; lia.
  - repeat scan_case H IHs IHa IHo;
      try discriminate; try (injection H as Hv Hr; subst);
      cbn [length] in *; lia.
  - repeat scan_case H IHs IHa IHo;
      try discriminate; try (injection H as Hv Hr; subst);
      cbn [length] in *; lia.
Qed.

(** With twice the length of the text (and one or two more) the bound on
    the steps is not reached. *)
Lemma scan_fuel (fuel : nat) :
  (forall depth s, 2 * length s + 1 <= fuel -> scan_once fuel depth s <> NoFuel) /\
  (forall depth s, 2 * length s + 2 <= fuel -> array_items fuel depth s <> NoFuel) /\
  (forall depth s, 2 * length s + 2 <= fuel -> object_items fuel depth s <> NoFuel).
Proof.
  induction fuel as [|fuel (IHs & IHa & IHo)]; [repeat split; intros; lia|].
  destruct (scan_shorter fuel) as (Ss & Sa & So).
  assert (Hs : forall depth s, scan_once fuel depth s = NoFuel ->
                               ~ 2 * length s + 1 <= fuel)
    by (intros depth s E Hle; exact (IHs depth s Hle E)).
  assert (Ha : forall depth s, array_items fuel depth s = NoFuel ->
                               ~ 2 * length s + 2 <= fuel)
    by (intros depth s E Hle; exact (IHa depth s Hle E)).
  assert (Ho : forall depth s, object_items fuel depth s = NoFuel ->
                               ~ 2 * length s + 2 <= fuel)
    by (intros depth s E Hle; exact (IHo depth s Hle E)).
  clear IHs IHa IHo.
  repeat split; intros depth s Hf H;
    cbn [scan_once array_items object_items] in H; unfold Bad in H.
  - destruct s as [|c s]; [discriminate|]. cbn [length] in Hf.
    unfold constant, Bad in H.
    repeat (first
      [ match type of H with
        | match object_items ?f ?d ?x with _ => _ end = _ =>
            let E := fresh "E" in
            destruct (object_items f d x) eqn:E; [apply So in E| |apply Ho in E]
        | match array_items ?f ?d ?x with _ => _ end = _ =>
            let E := fresh "E" in
            destruct (array_items f d x) eqn:E; [apply Sa in E| |apply Ha in E]
        end
      | scan_case H Ss Sa So ]);
      try discriminate; cbn [length] in *; lia.
  - destruct (scan_once fuel depth s) as [x r0| |] eqn:E0;
      [apply Ss in E0 | discriminate | apply Hs in E0; lia].
    pose proof (skip_ws_length r0) as Lw0.
    destruct (skip_ws r0) as [|y r1]; [discriminate|]. cbn [length] in Lw0.
    destruct (y =? _)%N; [discriminate|].
    destruct (y =? _)%N; [|discriminate].
    pose proof (skip_ws_length r1) as Lw1.
    destruct (array_items fuel depth (skip_ws r1)) eqn:E1; try discriminate.
    apply Ha in E1. lia.
  - destruct (scanstring 0 s) as [[key r0]|] eqn:E; [|discriminate].
    apply scanstring_shorter in E. pose proof (skip_ws_length r0) as Lw.
    destruct (skip_ws r0) as [|x r1]; [discriminate|]. cbn [length] in Lw.
    destruct (x =? _)%N; [|discriminate].
    pose proof (skip_ws_length r1) as Lw1.
    destruct (scan_once fuel depth (skip_ws r1)) as [w r2| |] eqn:E1;
      [apply Ss in E1 | discriminate | apply Hs in E1; lia].
    pose proof (skip_ws_length r2) as Lw2.
    destruct (skip_ws r2) as [|y r3]; [discriminate|]. cbn [length] in Lw2.
    destruct (y =? _)%N; [discriminate|].
    destruct (y =? _)%N; [|discriminate].
    pose proof (skip_ws_length r3) as Lw3.
    destruct (skip_ws r3) as [|z r4]; [discriminate|]. cbn [length] in Lw3.
    destruct (z =? _)%N; [|discriminate].
    destruct (object_items fuel depth r4) eqn:E2; try discriminate.
    apply Ho in E2. lia.
Qed.

Lemma scan_number_raises (s : str) (e : exn) (r : str) :
  scan_number s = Some (Raise e, r) -> exists msg, e = ValueError msg.
Proof.
  unfold scan_number, parse_int.
  destruct (opt_minus s) as [neg s1].
  destruct (int_part s1) as [[digits s2]|]; [|discriminate].
  destruct (frac_part s2) as [frac s3].
  destruct (exp_part s3) as [ex s4].
  destruct frac, ex; try discriminate.
  destruct (_ && _); [|discriminate].
  intros H. injection H as He _. eauto.
Qed.

Lemma scan_raises (fuel : nat) :
  (forall depth s e, scan_once fuel depth s = Fails e -> decoder_exn e) /\
  (forall depth s e, array_items fuel depth s = Fails e -> decoder_exn e) /\
  (forall depth s e, object_items fuel depth s = Fails e -> decoder_exn e).
Proof.
  induction fuel as [|fuel (IHs & IHa & IHo)];
    [repeat split; intros; discriminate|].
  assert (Hbad : decoder_exn JSONDecodeError) by (left; reflexivity).
  assert (Hrec : decoder_exn RecursionError) by (right; left; reflexivity).
  assert (Hval : forall msg, decoder_exn (ValueError msg))
    by (intros msg; right; right; eauto).
  repeat split; intros depth s e H;
    cbn [scan_once array_items object_items] in H; unfold constant, Bad in H;
    repeat match type of H with
    | (if ?b then _ else _) = _ => destruct b
    | match ?d with O => _ | S _ => _ end = _ => is_var d; destruct d
    | match ?x with [] => _ | _ :: _ => _ end = _ => destruct x
    | match scanstring ?k ?x with _ => _ end = _ =>
        destruct (scanstring k x) as [[? ?]|]
    | match object_items ?f ?d ?x with _ => _ end = _ =>
        let E := fresh "E" in
        destruct (object_items f d x) eqn:E; [|apply IHo in E|]
    | match array_items ?f ?d ?x with _ => _ end = _ =>
        let E := fresh "E" in
        destruct (array_items f d x) eqn:E; [|apply IHa in E|]
    | match scan_once ?f ?d ?x with _ => _ end = _ =>
        let E := fresh "E" in
        destruct (scan_once f d x) eqn:E; [|apply IHs in E|]
    | match scan_number ?x with _ => _ end = _ =>
        let E := fresh "E" in
        destruct (scan_number x) as [[[?|?] ?]|] eqn:E;
        [|apply scan_number_raises in E; destruct E as [? ->]|]
    end;
    try discriminate; injection H as <-; auto.
Qed.

(** [json.loads] raises the decoding error, or one of the two errors of
    the limits. *)
Lemma json_loads_raises (s : str) (e : exn) :
  json_loads s = Raise e -> decoder_exn e.
Proof.
  unfold json_loads.
  destruct (starts_with _ s); [intros H; injection H as <-; left; reflexivity|].
  destruct (scan_once _ _ (skip_ws s)) as [v r|e'|] eqn:E.
  - destruct (skip_ws r); [discriminate|].
    intros H; injection H as <-; left; reflexivity.
  - intros H; injection H as <-.
    exact (proj1 (scan_raises _) _ _ _ E).
  - exfalso. exact (proj1 (scan_fuel _) _ _ (le_n _) E).
Qed.

End DecoderBounds.

Section DecoderWithinLimits.
Context {Lim : Limits}.
Local Open Scope nat_scope.

Lemma span_digits_fst_length (s : str) : length (fst (span_digits s)) <= length s.
Proof.
  induction s as [|c s IH]; simpl; [lia|].
  destruct (is_digit c); simpl; [|lia].
  destruct (span_digits s); simpl in *. lia.
Qed.

Lemma int_part_digits (s d r : str) :
  int_part s = Some (d, r) -> length d <= length s.
Proof.
  destruct s as [|c s]; simpl; [discriminate|].
  destruct (c =? _)%N.
  - intros H; injection H as Hd Hr; subst; simpl; lia.
  - destruct (is_digit c); [|discriminate].
    pose proof (span_digits_fst_length s) as Hl.
    destruct (span_digits s) as [d' r']. simpl in Hl.
    intros H; injection H as Hd Hr; subst; simpl; lia.
Qed.

Lemma scan_number_few_digits (s : str) (e : exn) (r : str) :
  few_digits s -> scan_number s <> Some (Raise e, r).
Proof.
  unfold scan_number, parse_int, few_digits. intros Hs.
  pose proof (opt_minus_length s) as L1.
  destruct (opt_minus s) as [neg s1]. simpl in L1.
  destruct (int_part s1) as [[digits s2]|] eqn:Ei; [|discriminate].
  apply int_part_digits in Ei.
  destruct (frac_part s2) as [frac s3].
  destruct (exp_part s3) as [ex s4].
  destruct frac, ex; try discriminate.
  destruct (Nat.ltb 0 _ && Nat.ltb _ _) eqn:Eb; [|discriminate].
  apply andb_true_iff in Eb. destruct Eb as [E0 E1].
  apply Nat.ltb_lt in E0, E1. lia.
Qed.

(** A text that is not longer than the limits allow is decoded without
    reaching them. *)
Lemma scan_within_limits (fuel : nat) :
  (forall depth s e, length s <= depth -> few_digits s ->
     scan_once fuel depth s = Fails e -> e = JSONDecodeError) /\
  (forall depth s e, length s <= depth -> few_digits s ->
     array_items fuel depth s = Fails e -> e = JSONDecodeError) /\
  (forall depth s e, length s <= depth -> few_digits s ->
     object_items fuel depth s = Fails e -> e = JSONDecodeError).
Proof.
  induction fuel as [|fuel (IHs & IHa & IHo)];
    [repeat split; intros; discriminate|].
  destruct (scan_shorter fuel) as (Ss & Sa & So).
  assert (Hfew : forall s s', few_digits s -> length s' <= length s -> few_digits s')
    by (unfold few_digits; intros s s' [H|H] Hl; [left|right]; lia).
  repeat split; intros depth s e Hd Hs H;
    cbn [scan_once array_items object_items] in H; unfold constant, Bad in H.
  - destruct s as [|c s]; [congruence|]. cbn [length] in Hd.
    repeat match type of H with
    | (if ?b then _ else _) = _ => destruct b
    | match ?d with O => _ | S _ => _ end = _ => is_var d; destruct d; [lia|]
    | match skip_ws ?x with _ => _ end = _ =>
        let Lw := fresh "Lw" in
        pose proof (skip_ws_length x) as Lw;
        destruct (skip_ws x); cbn [length] in Lw
    | match scanstring ?k ?x with _ => _ end = _ =>
        destruct (scanstring k x) as [[? ?]|]
    | match object_items ?f ?d ?x with _ => _ end = _ =>
        let E := fresh "E" in
        destruct (object_items f d x) eqn:E;
        [|apply IHo in E; [|lia|eapply Hfew; [exact Hs|cbn [length]; lia]]|]
    | match array_items ?f ?d ?x with _ => _ end = _ =>
        let E := fresh "E" in
        destruct (array_items f d x) eqn:E;
        [|apply IHa in E; [|cbn [length]; lia|eapply Hfew; [exact Hs|cbn [length]; lia]]|]
    | match scan_number ?x with _ => _ end = _ =>
        let E := fresh "E" in
        destruct (scan_number x) as [[[?|?] ?]|] eqn:E;
        [|exfalso; revert E; now apply scan_number_few_digits|]
    end; congruence.
  - destruct (scan_once fuel depth s) as [x r0|e0|] eqn:E0; [| |discriminate].
    + apply Ss in E0. pose proof (skip_ws_length r0) as Lw0.
      destruct (skip_ws r0) as [|y r1]; [congruence|]. cbn [length] in Lw0.
      destruct (y =? _)%N; [discriminate|].
      destruct (y =? _)%N; [|congruence].
      pose proof (skip_ws_length r1) as Lw1.
      destruct (array_items fuel depth (skip_ws r1)) eqn:E1; try discriminate.
      apply IHa in E1; [congruence|lia|eapply Hfew; [exact Hs|lia]].
    + apply IHs in E0; congruence.
  - destruct (scanstring 0 s) as [[key r0]|] eqn:E; [|congruence].
    apply scanstring_shorter in E. pose proof (skip_ws_length r0) as Lw.
    destruct (skip_ws r0) as [|x r1]; [congruence|]. cbn [length] in Lw.
    destruct (x =? _)%N; [|congruence].
    pose proof (skip_ws_length r1) as Lw1.
    destruct (scan_once fuel depth (skip_ws r1)) as [w r2|e1|] eqn:E1;
      [|apply IHs in E1; [congruence|lia|eapply Hfew; [exact Hs|lia]]|discriminate].
    apply Ss in E1. pose proof (skip_ws_length r2) as Lw2.
    destruct (skip_ws r2) as [|y r3]; [congruence|]. cbn [length] in Lw2.
    destruct (y =? _)%N; [discriminate|].
    destruct (y =? _)%N; [|congruence].
    pose proof (skip_ws_length r3) as Lw3.
    destruct (skip_ws r3) as [|z r4]; [congruence|]. cbn [length] in Lw3.
    destruct (z =? _)%N; [|congruence].
    destruct (object_items fuel depth r4) eqn:E2; try discriminate.
    apply IHo in E2; [congruence|lia|eapply Hfew; [exact Hs|lia]].
Qed.

(** [json.loads] on a text within the limits raises nothing but the
    decoding error. *)
Lemma json_loads_within_limits (s : str) (e : exn) :
  length s <= recursion_depth -> few_digits s ->
  json_loads s = Raise e -> e = JSONDecodeError.
Proof.
  intros Hd Hs. unfold json_loads.
  destruct (starts_with _ s); [congruence|].
  pose proof (skip_ws_length s) as Lw.
  destruct (scan_once _ _ (skip_ws s)) as [v r|e'|] eqn:E.
  - destruct (skip_ws r); congruence.
  - intros H; injection H as <-.
    apply (proj1 (scan_within_limits _) _ _ _) in E; [assumption|lia|].
    destruct Hs as [Hs|Hs]; [left|right]; lia.
  - exfalso. exact (proj1 (scan_fuel _) _ _ (le_n _) E).
Qed.

End DecoderWithinLimits.

(* ===================================================================== *)
(** * The slide cleaner *)
(* ===================================================================== *)

Section CleanerFacts.
Context {U : UnicodeData}.

(** The loop over any list of patterns does one promotion, if a pattern
    matches the title and the first line of the content is not blank. *)
Lemma clean_loop_spec (patterns : list regex) (t c : str) :
  clean_loop patterns t c =
  if existsb (fun pattern => is_some (re_match false pattern t)) patterns
  then if nonempty (strip (first_line c))
       then (strip (first_line c), strip (join [nl] (other_lines c)))
       else (t, c)
  else (t, c).
Proof.
  induction patterns as [|pattern patterns IH]; simpl; [reflexivity|].
  destruct (is_some (re_match false pattern t)); simpl; [|exact IH].
  unfold first_line, other_lines.
  pose proof (split_not_nil nl c) as Hne.
  destruct (split nl c) as [|line0 lines]; [contradiction|reflexivity].
Qed.

Lemma nonempty_false (s : str) : nonempty s = false <-> s = [].
Proof. destruct s; simpl; split; congruence. Qed.

Lemma nonempty_true (s : str) : nonempty s = true <-> s <> [].
Proof. destruct s; simpl; split; congruence. Qed.

(** C2 (amended).  When the title matches one of the three header
    patterns and the first line of the content is not blank, the cleaned
    title is that first line stripped and the cleaned content is the other
    lines joined by newlines and stripped; the promotion is done once.
    When the title matches but the first line of the content is blank, and
    when the title matches none of the patterns, the slide comes back
    unchanged. *)
Theorem clean_slide_content_promotes_first_line (s : slide) :
  (matches_header (title s) = true ->
   strip (first_line (content s)) <> [] ->
   clean_slide_content s =
     {| title := strip (first_line (content s));
        content := strip (join [nl] (other_lines (content s)));
        slide_num := slide_num s |}) /\
  (matches_header (title s) = true ->
   strip (first_line (content s)) = [] ->
   clean_slide_content s = s) /\
  (matches_header (title s) = false -> clean_slide_content s = s).
Proof.
  unfold clean_slide_content, matches_header.
  rewrite clean_loop_spec. destruct s as [t c n]; simpl.
  repeat split; intros Hm; rewrite Hm.
  - intros Hl. apply nonempty_true in Hl. now rewrite Hl.
  - intros Hl. now rewrite Hl.
  - reflexivity.
Qed.

Lemma slide_num_clean (s : slide) :
  slide_num (clean_slide_content s) = slide_num s.
Proof.
  unfold clean_slide_content.
  now destruct (clean_loop header_patterns (title s) (content s)).
Qed.

(** C10.  The slide that the cleaner returns has the number of the slide
    it was given: only the title and the content can differ. *)
Theorem clean_slide_content_keeps_slide_num (s : slide) :
  slide_num (clean_slide_content s) = slide_num s.
Proof. exact (slide_num_clean s). Qed.

End CleanerFacts.

(* ===================================================================== *)
(** * The recovery chain *)
(* ===================================================================== *)

Section RecoveryFacts.
Context {U : UnicodeData} {Lim : Limits}.

(** Stage 2 lets no decoding error out: what the decoder raises is that
    error, which the clause names, or an error of the limits. *)
Lemma embedded_json_array_outcome (cards_text : str) :
  (exists o, embedded_json_array cards_text = Ok o) \/
  (exists e, embedded_json_array cards_text = Raise e /\ limit_exn e).
Proof.
  unfold embedded_json_array, try_except.
  destruct (re_search true json_array_pattern cards_text) as [m|]; [|eauto].
  destruct (json_loads _) as [v|e] eqn:E; [eauto|].
  apply json_loads_raises in E.
  destruct E as [->|Hl]; [simpl; eauto|].
  right. exists e. split; [|exact Hl].
  destruct Hl as [->|[msg ->]]; reflexivity.
Qed.

Lemma qa_pairs_shape (cards_text : str) : Forall is_qa_pair (qa_pairs cards_text).
Proof.
  unfold qa_pairs. apply Forall_forall. intros card Hin.
  apply in_map_iff in Hin. destruct Hin as (m & <- & _).
  unfold is_qa_pair. eauto.
Qed.

Lemma lenient_pairs_shape (cards_text : str) :
  Forall is_qa_pair (lenient_pairs cards_text).
Proof.
  unfold lenient_pairs. apply Forall_forall. intros card Hin.
  apply in_map_iff in Hin. destruct Hin as (m & <- & _).
  unfold is_qa_pair. eauto.
Qed.

(** The manual extraction always has a pair to return. *)
Lemma manual_extraction_nonempty (cards_text slide_text : str) :
  exists card cards,
    manual_extraction cards_text slide_text = card :: cards /\
    Forall is_qa_pair (card :: cards).
Proof.
  unfold manual_extraction.
  pose proof (qa_pairs_shape cards_text) as H3.
  pose proof (lenient_pairs_shape cards_text) as H4.
  destruct (qa_pairs cards_text) as [|c3 l3]; [|eauto].
  destruct (lenient_pairs cards_text) as [|c4 l4]; [|eauto].
  do 2 eexists. split; [reflexivity|].
  constructor; [|constructor]. unfold is_qa_pair. eauto.
Qed.

(** What the recovery does, case by case: it returns the response as
    decoded, or what stage 2 decodes, or the pairs of the manual
    extraction; or else an error of the limits, raised by the decoder at
    stage 1 or at stage 2, comes out. *)
Lemma recover_cards_cases (cards_text slide_text : str) :
  (exists v,
     recover_cards cards_text slide_text = Ok v /\
     (json_loads cards_text = Ok v \/
      (json_loads cards_text = Raise JSONDecodeError /\
       embedded_json_array cards_text = Ok (Some v)) \/
      (json_loads cards_text = Raise JSONDecodeError /\
       embedded_json_array cards_text = Ok None /\
       exists card cards, v = JList (card :: cards) /\
                          Forall is_qa_pair (card :: cards)))) \/
  (exists e,
     recover_cards cards_text slide_text = Raise e /\
     limit_exn e /\
     (json_loads cards_text = Raise e \/
      (json_loads cards_text = Raise JSONDecodeError /\
       embedded_json_array cards_text = Raise e))).
Proof.
  unfold recover_cards, recover_with, try_except.
  destruct (json_loads cards_text) as [v|e] eqn:E1; [eauto|].
  apply json_loads_raises in E1. destruct E1 as [->|Hl].
  - simpl. unfold decode_error_handler.
    destruct (embedded_json_array_outcome cards_text)
      as [[[v|] E2]|(e & E2 & Hl)]; rewrite E2.
    + left. eauto 6.
    + destruct (manual_extraction_nonempty cards_text slide_text)
        as (card & cards & -> & Hall).
      left. eexists. split; [reflexivity|]. right. right. eauto 6.
    + right. eauto 6.
  - right. exists e. destruct Hl as [->|[msg ->]]; simpl;
      (split; [reflexivity|split; [|auto]]).
    + left; reflexivity.
    + right; eauto.
Qed.

(** C1 (amended).  On a response for which the decoder raises nothing
    but its decoding error, at stage 1 and at stage 2, the recovery
    returns and lets no exception out: the decoding error of stage 1 leads
    to stage 2 and that of stage 2 to the manual extraction.  It returns
    the response as decoded when the decoder accepts it (whatever JSON
    value it is, the empty list included); else the value that stage 2
    decodes, as it is; else a list of question and answer pairs that is
    not empty. *)
Theorem recover_cards_outcome (cards_text slide_text : str) :
  (forall e, json_loads cards_text = Raise e -> e = JSONDecodeError) ->
  (forall e, embedded_json_array cards_text <> Raise e) ->
  exists v,
    recover_cards cards_text slide_text = Ok v /\
    (json_loads cards_text = Ok v \/
     (json_loads cards_text = Raise JSONDecodeError /\
      embedded_json_array cards_text = Ok (Some v)) \/
     (json_loads cards_text = Raise JSONDecodeError /\
      embedded_json_array cards_text = Ok None /\
      exists card cards, v = JList (card :: cards) /\
                         Forall is_qa_pair (card :: cards))).
Proof.
  intros H1 H2.
  destruct (recover_cards_cases cards_text slide_text)
    as [Hv|(e & _ & Hl & [E|[_ E]])]; [exact Hv| |].
  - apply H1 in E. subst e. destruct Hl as [Hl|[msg Hl]]; discriminate.
  - now apply H2 in E.
Qed.

(** C4.  A response that the decoder accepts as a JSON array comes back
    as decoded, whatever the handler of the decoding error is: the handler
    of the source, with its search, its quote repair and its manual
    extraction, has no part in the result. *)
Theorem recover_cards_stage1_only (cards_text slide_text : str) (items : list json) :
  json_loads cards_text = Ok (JList items) ->
  recover_cards cards_text slide_text = Ok (JList items) /\
  forall handler, recover_with handler cards_text slide_text = Ok (JList items).
Proof.
  intros H. unfold recover_cards, recover_with, try_except.
  rewrite H. split; reflexivity.
Qed.

(** C5.  When the decoder rejects the response, stage 2 has nothing to
    return and stages 3 and 4 find no pair, the result is the single pair
    that asks to review the slide, with the slide text as its answer. *)
Theorem recover_cards_last_resort (cards_text slide_text : str) :
  json_loads cards_text = Raise JSONDecodeError ->
  embedded_json_array cards_text = Ok None ->
  qa_pairs cards_text = [] ->
  lenient_pairs cards_text = [] ->
  recover_cards cards_text slide_text =
    Ok (JList [qa_card (JStr (py "Review this slide")) (JStr slide_text)]).
Proof.
  intros H1 H2 H3 H4.
  unfold recover_cards, recover_with, try_except. rewrite H1. simpl.
  unfold decode_error_handler. rewrite H2.
  unfold manual_extraction. now rewrite H3, H4.
Qed.

End RecoveryFacts.

(* ===================================================================== *)
(** * The card generator *)
(* ===================================================================== *)

Section GeneratorFacts.
Context {U : UnicodeData} {Lim : Limits}.
Variable E : env.

Lemma log_calls_0 (t : str) (w : world) : log_calls t 0 w = w.
Proof. destruct w. unfold log_calls. simpl. now rewrite app_nil_r. Qed.

Lemma log_calls_S (t : str) (k : nat) (w : world) :
  log_calls t k (log_call t w) = log_calls t (S k) w.
Proof. unfold log_calls, log_call. simpl. now rewrite <- app_assoc. Qed.

(** An attempt makes exactly one call, whatever comes of it. *)
Lemma attempt_world (c : slide) (w : world) :
  snd (attempt E c w) = log_call (full_text_of c) w.
Proof.
  unfold attempt, _ask_ai_for_cards.
  destruct (chat_completion E _ _) as [response|e]; simpl; [|reflexivity].
  now destruct (recover_cards response (full_text_of c)).
Qed.

(** An attempt in which the client raises gives the exception to the
    retry loop. *)
Lemma attempt_client_raises (c : slide) (w : world) (e : exn) :
  chat_completion E (length (calls w)) (full_text_of c) = Raise e ->
  attempt E c w = (Raise e, log_call (full_text_of c) w).
Proof. intros H. unfold attempt, _ask_ai_for_cards. now rewrite H. Qed.

(** The retry loop makes at least one call, when it may make any, and at
    most as many as it has retries. *)
Lemma attempts_world (n : nat) (c : slide) (w : world) :
  exists k, (k <= n)%nat /\ (0 < n -> 0 < k)%nat /\
            snd (attempts E n c w) = log_calls (full_text_of c) k w.
Proof.
  revert w. induction n as [|n IH]; intros w; simpl.
  - exists 0%nat. rewrite log_calls_0. repeat split; lia.
  - pose proof (attempt_world c w) as Hw.
    destruct (attempt E c w) as [[cards|e] w']; simpl in Hw; subst w'.
    + exists 1%nat. simpl. rewrite <- log_calls_S, log_calls_0.
      repeat split; lia.
    + destruct (IH (log_call (full_text_of c) w)) as (k & Hk & _ & ->).
      exists (S k). rewrite log_calls_S. repeat split; lia.
Qed.

(** When the client raises at each of the next [n] calls, the retry loop
    ends without success after [n] calls. *)
Lemma attempts_all_fail (n : nat) (c : slide) (w : world) :
  (forall i, (i < n)%nat ->
     exists e, chat_completion E (length (calls w) + i) (full_text_of c) = Raise e) ->
  attempts E n c w = (None, log_calls (full_text_of c) n w).
Proof.
  revert w. induction n as [|n IH]; intros w H; simpl.
  - now rewrite log_calls_0.
  - destruct (H 0%nat ltac:(lia)) as [e He]. rewrite Nat.add_0_r in He.
    rewrite (@attempt_client_raises c w e He).
    rewrite IH, log_calls_S; [reflexivity|].
    intros i Hi. destruct (H (S i) ltac:(lia)) as [e' He'].
    exists e'. unfold log_call. simpl. rewrite length_app. simpl.
    now replace (length (calls w) + 1 + i)%nat with (length (calls w) + S i)%nat by lia.
Qed.

Lemma has_meaningful_content_spec (c : slide) :
  has_meaningful_content c = false <->
  (length (title c) <= 3 /\ length (content c) <= 10)%nat.
Proof.
  unfold has_meaningful_content.
  rewrite orb_false_iff, !Nat.ltb_ge. reflexivity.
Qed.

(** C6.  A slide whose cleaned title has at most 3 characters and whose
    cleaned content has at most 10 adds no card and causes no call to the
    client; a slide whose cleaned title is longer than 3 or whose cleaned
    content is longer than 10 passes the gate, so that the client is
    called for it. *)
Theorem meaningful_content_gate (s : slide) (w : world) :
  let cleaned_slide := clean_slide_content s in
  ((length (title cleaned_slide) <= 3)%nat ->
   (length (content cleaned_slide) <= 10)%nat ->
   slide_cards E s w = ([], w)) /\
  ((3 < length (title cleaned_slide))%nat \/
   (10 < length (content cleaned_slide))%nat ->
   has_meaningful_content cleaned_slide = true /\
   exists k, (1 <= k <= 3)%nat /\
     snd (slide_cards E s w) = log_calls (full_text_of cleaned_slide) k w).
Proof.
  intros c. split.
  - intros Ht Hc. unfold slide_cards. fold c.
    now rewrite (proj2 (has_meaningful_content_spec c) (conj Ht Hc)).
  - intros H.
    assert (Hg : has_meaningful_content c = true).
    { destruct (has_meaningful_content c) eqn:G; [reflexivity|].
      apply has_meaningful_content_spec in G. lia. }
    split; [exact Hg|].
    unfold slide_cards. fold c. rewrite Hg. cbn [negb].
    destruct (attempts_world max_retries c w) as (k & Hk & Hpos & Hw).
    exists k. split; [unfold max_retries in *; lia|].
    destruct (attempts E max_retries c w) as [[cards|] w']; cbn [snd] in Hw |- *;
      [assumption|].
    now destruct (nonempty (title c)).
Qed.

(** C3 (amended).  For a slide that passes the gate and for which the
    client raises at each of the three calls: when the cleaned title is
    not empty, the slide adds exactly one card, with the question made of
    the title, the content (or the placeholder when the content is empty)
    as answer, the label of the slide and the context that marks it as
    generated after the failure; when the cleaned title is empty it adds
    no card.  Either way the loop goes on with the next slide. *)
Theorem fallback_card_after_three_failures (s : slide) (w : world) :
  let cleaned_slide := clean_slide_content s in
  let w' := log_calls (full_text_of cleaned_slide) 3 w in
  has_meaningful_content cleaned_slide = true ->
  (forall i, (i < 3)%nat ->
     exists e, chat_completion E (length (calls w) + i)
                               (full_text_of cleaned_slide) = Raise e) ->
  (title cleaned_slide <> [] ->
   slide_cards E s w =
     ([JDict [(py "question",
               JStr (py "Explain the concept of: " ++ title cleaned_slide));
              (py "answer",
               JStr (if nonempty (content cleaned_slide)
                     then content cleaned_slide
                     else py "Review the slide content."));
              (py "slide", JStr (py "Slide " ++ str_of_int (slide_num s)));
              (py "context", JStr (py "Auto-generated (DeepSeek API failed)"))]],
      w')) /\
  (title cleaned_slide = [] -> slide_cards E s w = ([], w')) /\
  (forall slides all_cards,
     generate_loop E (s :: slides) all_cards w =
     generate_loop E slides (all_cards ++ fst (slide_cards E s w)) w').
Proof.
  intros c w' Hg Hfail.
  assert (Hs : slide_cards E s w =
               (if nonempty (title c) then [fallback_card c] else [], w')).
  { unfold slide_cards. fold c. rewrite Hg. cbn [negb].
    unfold max_retries. rewrite (@attempts_all_fail 3%nat c w Hfail).
    now destruct (nonempty (title c)). }
  repeat split.
  - intros Ht. apply nonempty_true in Ht. rewrite Hs, Ht.
    unfold fallback_card, slide_label, c.
    now rewrite slide_num_clean.
  - intros Ht. now rewrite Hs, Ht.
  - intros slides all_cards. simpl. now rewrite Hs.
Qed.

Lemma stamp_has_label (label context : str) (card card' : json) :
  stamp label context card = Ok card' -> has_label label card'.
Proof.
  destruct card; simpl; try discriminate.
  intros H. injection H as <-. eexists. split; [reflexivity|].
  rewrite dict_get_set_other by (vm_compute; discriminate).
  apply dict_get_set_same.
Qed.

Lemma stamp_all_has_label (label context : str) (cards out : list json) :
  stamp_all label context cards = Ok out -> Forall (has_label label) out.
Proof.
  revert out. induction cards as [|card cards IH]; intros out; simpl.
  - intros H. injection H as <-. constructor.
  - destruct (stamp label context card) as [card'|] eqn:E1; [|discriminate].
    destruct (stamp_all label context cards) as [rest|]; [|discriminate].
    intros H. injection H as <-.
    constructor; [eapply stamp_has_label; eauto | now apply IH].
Qed.

Lemma stamp_cards_has_label (label context : str) (cards : json) (out : list json) :
  stamp_cards label context cards = Ok out -> Forall (has_label label) out.
Proof.
  destruct cards as [| | | |[|]|items|[|]]; simpl; try discriminate;
    try (intros H; injection H as <-; constructor).
  apply stamp_all_has_label.
Qed.

Lemma attempts_has_label (n : nat) (c : slide) (w w' : world) (cards : list json) :
  attempts E n c w = (Some cards, w') -> Forall (has_label (slide_label c)) cards.
Proof.
  revert w. induction n as [|n IH]; intros w; simpl; [discriminate|].
  destruct (attempt E c w) as [[out|e] w1] eqn:Ea; [|apply IH].
  intros H. injection H as <- _.
  unfold attempt in Ea.
  destruct (_ask_ai_for_cards E (full_text_of c) w) as [[v|e] w2];
    [|discriminate].
  injection Ea as Ea _. eapply stamp_cards_has_label; eauto.
Qed.

(** The cards of a slide carry its label, and a slide that does not pass
    the gate has none. *)
Lemma slide_cards_has_label (s : slide) (w : world) (card : json) :
  In card (fst (slide_cards E s w)) ->
  has_meaningful_content (clean_slide_content s) = true /\
  has_label (py "Slide " ++ str_of_int (slide_num s)) card.
Proof.
  unfold slide_cards.
  rewrite <- (slide_num_clean s).
  set (c := clean_slide_content s).
  destruct (has_meaningful_content c); cbn [negb fst In]; [|contradiction].
  intros Hin. split; [reflexivity|].
  destruct (attempts E max_retries c w) as [[cards|] w'] eqn:Ea; cbn [fst] in Hin.
  - apply attempts_has_label in Ea.
    rewrite Forall_forall in Ea. now apply Ea.
  - destruct (nonempty (title c)); cbn [fst In] in Hin; [|contradiction].
    destruct Hin as [<-|[]]. eexists. split; [reflexivity|].
    reflexivity.
Qed.

Lemma generate_loop_cards (slides : list slide) (all_cards : list json) (w : world)
    (card : json) :
  In card (fst (generate_loop E slides all_cards w)) ->
  In card all_cards \/
  exists s w0, In s slides /\ In card (fst (slide_cards E s w0)).
Proof.
  revert all_cards w. induction slides as [|s slides IH]; intros all_cards w; simpl.
  - auto.
  - destruct (slide_cards E s w) as [cards w'] eqn:Es. intros Hin.
    apply IH in Hin. destruct Hin as [Hin|(s' & w0 & Hs' & Hin)].
    + apply in_app_or in Hin. destruct Hin as [Hin|Hin]; [auto|].
      right. exists s, w. rewrite Es. auto.
    + right. eauto.
Qed.

(** C7.  Every card of the list that the generator returns is a
    dictionary whose slide item is the text Slide N, N being the number of
    a slide of the input that passed the gate: the label is not empty.
    The cards that a slide adds carry the number of that slide, and a
    slide that does not pass the gate adds no card. *)
Theorem every_card_carries_its_slide_label (slides : list slide) (w : world) :
  (forall card,
     In card (fst (generate_flashcards_with_deepseek E slides w)) ->
     exists s, In s slides /\
       has_meaningful_content (clean_slide_content s) = true /\
       has_label (py "Slide " ++ str_of_int (slide_num s)) card /\
       py "Slide " ++ str_of_int (slide_num s) <> []) /\
  (forall s w0 card,
     In card (fst (slide_cards E s w0)) ->
     has_label (py "Slide " ++ str_of_int (slide_num s)) card) /\
  (forall s w0,
     has_meaningful_content (clean_slide_content s) = false ->
     slide_cards E s w0 = ([], w0)).
Proof.
  repeat split.
  - intros card Hin. apply generate_loop_cards in Hin.
    destruct Hin as [[]|(s & w0 & Hs & Hin)].
    apply slide_cards_has_label in Hin. destruct Hin as [Hg Hl].
    exists s. repeat split; try assumption. discriminate.
  - intros s w0 card Hin. now apply slide_cards_has_label in Hin.
  - intros s w0 Hg. unfold slide_cards. now rewrite Hg.
Qed.

End GeneratorFacts.

(* ===================================================================== *)
(** * The deck builder *)
(* ===================================================================== *)

Lemma note_of_card_shows (card : json) :
  has_card_keys card -> exists n, note_of_card card = Ok n /\ shows card n.
Proof.
  intros (d & -> & Hq & Ha & Hs). unfold note_of_card, shows, card_item.
  destruct (dict_get (py "question") d) as [q|]; [|congruence].
  destruct (dict_get (py "answer") d) as [a|]; [|congruence].
  destruct (dict_get (py "slide") d) as [s|]; [|congruence].
  eexists. split; [reflexivity|]. exists q, a, s. simpl. auto.
Qed.

Lemma note_of_card_raises (card : json) :
  ~ has_card_keys card -> exists e, note_of_card card = Raise e.
Proof.
  intros Hno. unfold note_of_card, card_item.
  destruct card as [| | | | |items|d]; try (eexists; reflexivity).
  destruct (dict_get (py "question") d) as [q|] eqn:Eq; [|eauto].
  destruct (dict_get (py "answer") d) as [a|] eqn:Ea; [|eauto].
  destruct (dict_get (py "slide") d) as [s|] eqn:Es; [|eauto].
  exfalso. apply Hno. exists d. repeat split; congruence.
Qed.

Lemma add_notes_spec (cards : list json) (d : deck) :
  Forall has_card_keys cards ->
  exists ns, Forall2 shows cards ns /\
    add_notes cards d =
      Ok {| deck_id := deck_id d; deck_name := deck_name d; notes := notes d ++ ns |}.
Proof.
  revert d. induction cards as [|card cards IH]; intros d Hall; simpl.
  - exists []. split; [constructor|]. destruct d. simpl. now rewrite app_nil_r.
  - inversion Hall as [|? ? Hc Hcs]; subst.
    destruct (note_of_card_shows Hc) as (n & -> & Hn).
    destruct (IH {| deck_id := deck_id d; deck_name := deck_name d;
                    notes := notes d ++ [n] |} Hcs) as (ns & Hns & ->).
    exists (n :: ns). split; [now constructor|]. simpl.
    now rewrite <- app_assoc.
Qed.

Lemma add_notes_raises (cards : list json) (d : deck) :
  Exists (fun card => ~ has_card_keys card) cards ->
  exists e, add_notes cards d = Raise e.
Proof.
  revert d. induction cards as [|card cards IH]; intros d Hex; simpl.
  - inversion Hex.
  - destruct (note_of_card card) as [n|e] eqn:En; [|eauto].
    inversion Hex as [? ? Hc|? ? Hcs]; subst; [|now apply IH].
    destruct (note_of_card_raises Hc) as [e He]. congruence.
Qed.

(** C8 (amended).  For a list of cards that are dictionaries with the
    items question, answer and slide, the deck has the given name and one
    note for each card, in the order of the cards, each note showing the
    question, the answer, the slide label and the context of its card (the
    empty text when the card has no context).  When a card of the list is
    not such a dictionary, an exception comes out and there is no deck. *)
Theorem create_anki_deck_one_note_per_card (E : env) (cards : list json) (name : str) :
  (Forall has_card_keys cards ->
   exists d, create_anki_deck E cards name = Ok d /\
     deck_name d = name /\
     length (notes d) = length cards /\
     Forall2 shows cards (notes d)) /\
  (Exists (fun card => ~ has_card_keys card) cards ->
   exists e, create_anki_deck E cards name = Raise e).
Proof.
  unfold create_anki_deck. split.
  - intros Hall.
    destruct (add_notes_spec {| deck_id := random_deck_id E; deck_name := name;
                                notes := [] |} Hall) as (ns & Hns & ->).
    eexists. split; [reflexivity|]. simpl.
    repeat split; [|assumption].
    symmetry. eapply Forall2_length; eauto.
  - apply add_notes_raises.
Qed.

(* ===================================================================== *)
(** * The pipeline *)
(* ===================================================================== *)

(** C9.  For a path whose extension, in lower case, is not .pdf,
    [process_file] raises the error of the unsupported format at once: the
    world is as before, no call to the client has been made. *)
Theorem process_file_rejects_other_extensions {U : UnicodeData} {Lim : Limits} (E : env)
    (file_path name : str) (w : world) :
  lower (snd (splitext file_path)) <> py ".pdf" ->
  process_file E file_path name w =
    (Raise (ValueError (py "Unsupported file format: "
                        ++ lower (snd (splitext file_path)))), w) /\
  calls (snd (process_file E file_path name w)) = calls w.
Proof.
  intros Hext. apply str_eqb_neq in Hext.
  unfold process_file. rewrite Hext. split; reflexivity.
Qed.


(* ===================================================================== *)
(** * Stripping and splitting *)
(* ===================================================================== *)

Section TextFacts.
Context {U : UnicodeData}.

Lemma lstrip_head (s : str) (c : char) (t : str) :
  lstrip s = c :: t -> isspace c = false.
Proof.
  induction s as [|x s IH]; simpl; [discriminate|].
  destruct (isspace x) eqn:E; [exact IH|].
  intros H. injection H as <- _. exact E.
Qed.

Lemma lstrip_nonspace (c : char) (t : str) :
  isspace c = false -> lstrip (c :: t) = c :: t.
Proof. intros H. simpl. now rewrite H. Qed.

Lemma lstrip_idem (s : str) : lstrip (lstrip s) = lstrip s.
Proof.
  destruct (lstrip s) as [|c t] eqn:E; [reflexivity|].
  apply lstrip_nonspace. eapply lstrip_head; eauto.
Qed.

Lemma lstrip_app_nonspace (l : str) (c : char) :
  isspace c = false -> lstrip (l ++ [c]) = lstrip l ++ [c].
Proof.
  intros H. induction l as [|x l IH]; simpl.
  - now rewrite H.
  - destruct (isspace x); [exact IH|reflexivity].
Qed.

Lemma rstrip_cons (c : char) (t : str) :
  isspace c = false -> rstrip (c :: t) = c :: rstrip t.
Proof.
  intros H. unfold rstrip. simpl.
  rewrite lstrip_app_nonspace by exact H. rewrite rev_app_distr. reflexivity.
Qed.

Lemma rstrip_idem (s : str) : rstrip (rstrip s) = rstrip s.
Proof. unfold rstrip. now rewrite rev_involutive, lstrip_idem. Qed.

(** Stripping twice is stripping once. *)
Lemma strip_idem (s : str) : strip (strip s) = strip s.
Proof.
  unfold strip. destruct (lstrip s) as [|c t] eqn:E; [reflexivity|].
  apply lstrip_head in E.
  rewrite rstrip_cons by exact E. rewrite lstrip_nonspace by exact E.
  rewrite rstrip_cons by exact E. now rewrite rstrip_idem.
Qed.

Lemma lstrip_incl (s : str) (x : char) : In x (lstrip s) -> In x s.
Proof.
  induction s as [|c s IH]; simpl; [auto|].
  destruct (isspace c); simpl; auto.
Qed.

Lemma strip_incl (s : str) (x : char) : In x (strip s) -> In x s.
Proof.
  unfold strip, rstrip. intros H.
  apply in_rev, lstrip_incl, in_rev in H. now apply lstrip_incl.
Qed.

Lemma lstrip_length (s : str) : (length (lstrip s) <= length s)%nat.
Proof.
  induction s as [|c s IH]; simpl; [lia|].
  destruct (isspace c); simpl; lia.
Qed.

Lemma strip_length (s : str) : (length (strip s) <= length s)%nat.
Proof.
  unfold strip, rstrip. rewrite length_rev.
  pose proof (lstrip_length (rev (lstrip s))) as H1.
  rewrite length_rev in H1. pose proof (lstrip_length s). lia.
Qed.

(** The newline is white space. *)
Lemma isspace_nl : isspace nl = true.
Proof. reflexivity. Qed.

(** What is stripped of a text that starts with a character that is no
    white space starts with that character. *)
Lemma strip_cons_nonspace (c : char) (t : str) :
  isspace c = false -> strip (c :: t) = c :: rstrip t.
Proof.
  intros H. unfold strip. rewrite lstrip_nonspace by exact H. now apply rstrip_cons.
Qed.

(** No line of a text holds a newline. *)
Lemma split_no_sep (sep : char) (s : str) :
  Forall (fun line => ~ In sep line) (split sep s).
Proof.
  induction s as [|c s IH]; simpl.
  - constructor; [intros []|constructor].
  - destruct (char_eqb c sep) eqn:E.
    + constructor; [intros []|exact IH].
    + destruct (split sep s) as [|l ls]; [repeat constructor; intros [->|[]]|].
      * unfold char_eqb in E. now rewrite N.eqb_refl in E.
      * inversion IH as [|? ? Hl Hls]; subst.
        constructor; [|exact Hls].
        intros [->|Hin]; [|auto].
        unfold char_eqb in E. now rewrite N.eqb_refl in E.
Qed.

(** Joining the lines of a text gives the text back. *)
Lemma join_split (sep : char) (s : str) : join [sep] (split sep s) = s.
Proof.
  induction s as [|c s IH]; simpl; [reflexivity|].
  destruct (char_eqb c sep) eqn:E.
  - apply N.eqb_eq in E. subst c.
    destruct (split sep s) as [|l ls] eqn:Es.
    + now apply split_not_nil in Es.
    + simpl in *. now rewrite IH.
  - destruct (split sep s) as [|l ls] eqn:Es.
    + now apply split_not_nil in Es.
    + destruct ls; simpl in *; now rewrite <- IH.
Qed.

(** The first line of a text that starts with a character other than the
    newline starts with that character. *)
Lemma first_line_cons (c : char) (t : str) :
  c <> nl -> exists l, first_line (c :: t) = c :: l.
Proof.
  intros H. unfold first_line. simpl.
  destruct (char_eqb c nl) eqn:E; [apply N.eqb_eq in E; contradiction|].
  destruct (split nl t); simpl; eauto.
Qed.

End TextFacts.

(* ===================================================================== *)
(** * The extraction and the cleaner, beyond the claims *)
(* ===================================================================== *)

Section ExtractionFacts.
Context {U : UnicodeData} {Lim : Limits}.
Variable E : env.





Lemma filter_head (A : Type) (f : A -> bool) (l : list A) (x : A) (r : list A) :
  filter f l = x :: r -> f x = true.
Proof.
  intros H. assert (Hin : In x (filter f l)) by (rewrite H; now left).
  now apply filter_In in Hin.
Qed.

(** X2.  The title and the content of an extracted slide have no white
    space around them, the title has no newline in it, and a slide with
    content has a title. *)
Theorem extracted_slide_is_stripped (i : Z) (text : str) :
  let s := slide_of_page i text in
  strip (title s) = title s /\
  strip (content s) = content s /\
  ~ In nl (title s) /\
  (content s <> [] -> title s <> []).
Proof.
  unfold slide_of_page.
  destruct (filter _ (split nl text)) as [|line0 lines] eqn:Ef; simpl.
  - repeat split; auto.
  - repeat split; try apply strip_idem.
    + intros Hin. apply strip_incl in Hin.
      assert (Hl : In line0 (split nl text)).
      { eapply proj1. apply filter_In. rewrite Ef. now left. }
      pose proof (split_no_sep nl text) as Hno.
      rewrite Forall_forall in Hno. exact (Hno _ Hl Hin).
    + intros _. apply filter_head in Ef. now apply nonempty_true in Ef.
Qed.

(** X3.  The title of an extracted slide is empty exactly when every line
    of the page is blank, and then the content is empty too. *)
Theorem extracted_title_empty_iff_page_blank (i : Z) (text : str) :
  let s := slide_of_page i text in
  (title s = [] <-> forallb blank (split nl text) = true) /\
  (title s = [] -> content s = []).
Proof.
  unfold slide_of_page, blank.
  destruct (filter _ (split nl text)) as [|line0 lines] eqn:Ef; simpl.
  - split; [|auto]. split; [intros _|auto].
    apply forallb_forall. intros line Hin.
    destruct (nonempty (strip line)) eqn:En; [|reflexivity].
    assert (Hf : In line (filter (fun line => nonempty (strip line)) (split nl text)))
      by (apply filter_In; auto).
    rewrite Ef in Hf. destruct Hf.
  - pose proof (filter_head _ _ Ef) as Hn. apply nonempty_true in Hn.
    split; [|contradiction]. split; [contradiction|].
    intros Hall. rewrite forallb_forall in Hall.
    assert (Hl : In line0 (split nl text)).
    { eapply proj1. apply filter_In. rewrite Ef. now left. }
    apply Hall in Hl. apply negb_true_iff, nonempty_false in Hl. contradiction.
Qed.

(** X6.  On a page without blank line the two extraction paths give the
    same slide. *)
Theorem extraction_paths_agree_without_blank_lines (i : Z) (text : str) :
  forallb (fun line => negb (blank line)) (split nl text) = true ->
  slide_of_page_pypdf2 i text = slide_of_page i text.
Proof.
  intros H. unfold slide_of_page_pypdf2, slide_of_page.
  assert (Hf : filter (fun line => nonempty (strip line)) (split nl text) = split nl text).
  { rewrite forallb_forall in H. apply forallb_filter_id.
    apply forallb_forall. intros line Hin. apply H in Hin.
    unfold blank in Hin. now rewrite negb_involutive in Hin. }
  now rewrite Hf.
Qed.

Lemma join_tl_split_length (c : str) :
  (length (first_line c) + length (join [nl] (other_lines c)) <= length c)%nat.
Proof.
  unfold first_line, other_lines.
  pose proof (join_split nl c) as H.
  destruct (split nl c) as [|l0 [|l1 ls]]; simpl in *.
  - lia.
  - subst c. lia.
  - subst c. rewrite !length_app. simpl. lia.
Qed.

Lemma clean_slide_content_cases (s : slide) :
  clean_slide_content s = s \/
  (title (clean_slide_content s) <> [] /\
   (length (title (clean_slide_content s)) +
    length (content (clean_slide_content s)) <= length (content s))%nat).
Proof.
  unfold clean_slide_content. rewrite clean_loop_spec.
  destruct s as [t c n]; cbn [title content slide_num].
  match goal with |- context [existsb ?f header_patterns] =>
    destruct (existsb f header_patterns) end; [|auto].
  destruct (nonempty (strip (first_line c))) eqn:En; [|auto].
  cbn [title content]. apply nonempty_true in En.
  right. split; [exact En|].
  pose proof (strip_length (first_line c)).
  pose proof (strip_length (join [nl] (other_lines c))).
  pose proof (join_tl_split_length c). lia.
Qed.

(** X4.  Cleaning returns the slide as it is or replaces the title and the
    content by text taken from the content: the new title is not empty
    and, together with the new content, not longer than the old content.
    So cleaning never makes a title empty. *)
Theorem clean_slide_content_adds_no_text (s : slide) :
  (clean_slide_content s = s \/
   (title (clean_slide_content s) <> [] /\
    (length (title (clean_slide_content s)) +
     length (content (clean_slide_content s)) <= length (content s))%nat)) /\
  (title s <> [] -> title (clean_slide_content s) <> []).
Proof.
  split; [apply clean_slide_content_cases|].
  intros Ht. destruct (clean_slide_content_cases s) as [->|[H _]]; assumption.
Qed.

Lemma slide_of_page_content_needs_title (i : Z) (text : str) :
  title (slide_of_page i text) = [] -> content (slide_of_page i text) = [].
Proof.
  unfold slide_of_page.
  destruct (filter _ (split nl text)) as [|line0 lines] eqn:Ef; simpl; [auto|].
  apply filter_head in Ef. apply nonempty_true in Ef. contradiction.
Qed.

(** A slide of the extraction that passes the gate after cleaning has a
    title. *)
Lemma extracted_slide_has_title (i : Z) (text : str) :
  has_meaningful_content (clean_slide_content (slide_of_page i text)) = true ->
  title (clean_slide_content (slide_of_page i text)) <> [].
Proof.
  intros Hg.
  destruct (clean_slide_content_cases (slide_of_page i text)) as [Hs|[Ht _]];
    [|exact Ht].
  rewrite Hs in *. intros Ht.
  pose proof (slide_of_page_content_needs_title _ _ Ht) as Hc.
  unfold has_meaningful_content in Hg. rewrite Ht, Hc in Hg.
  discriminate.
Qed.

End ExtractionFacts.

(* ===================================================================== *)
(** * The card generator, beyond the claims *)
(* ===================================================================== *)

Section GeneratorMore.
Context {U : UnicodeData} {Lim : Limits}.
Variable E : env.

Lemma stamp_stamped (label context : str) (d : list (str * json)) :
  exists card',
    stamp label context (JDict d) = Ok card' /\
    stamped label context (JDict d) card'.
Proof.
  eexists. split; [reflexivity|]. unfold stamped, card_get. simpl.
  repeat split.
  - rewrite dict_get_set_other by (vm_compute; discriminate).
    apply dict_get_set_same.
  - apply dict_get_set_same.
  - intros key Hs Hc. now rewrite !dict_get_set_other by assumption.
Qed.

Lemma stamp_all_stamped (label context : str) (cards : list json) :
  forallb is_dict cards = true ->
  exists out,
    stamp_all label context cards = Ok out /\
    length out = length cards /\
    Forall2 (stamped label context) cards out.
Proof.
  induction cards as [|card cards IH]; simpl.
  - intros _. exists []. repeat split. constructor.
  - rewrite andb_true_iff. intros [Hd Hall].
    destruct card; try discriminate.
    destruct (stamp_stamped label context items) as (card' & Hs & Hst).
    destruct (IH Hall) as (out & Ho & Hl & Hf).
    exists (card' :: out). rewrite Hs, Ho. repeat split.
    + simpl. now rewrite Hl.
    + now constructor.
Qed.

(** X7.  Stamping a list of dictionaries succeeds and returns as many
    cards, in the same order; each has the label as item slide and the
    context as item context, whatever it had there before, and all its
    other items unchanged. *)
Theorem stamp_all_keeps_the_other_items (label context : str) (cards : list json) :
  forallb is_dict cards = true ->
  exists out,
    stamp_all label context cards = Ok out /\
    length out = length cards /\
    Forall2 (stamped label context) cards out.
Proof. apply stamp_all_stamped. Qed.

Lemma stamp_all_ok (label context : str) (cards out : list json) :
  stamp_all label context cards = Ok out ->
  forallb is_dict cards = true /\ length out = length cards.
Proof.
  revert out. induction cards as [|card cards IH]; intros out; simpl.
  - intros H. injection H as <-. auto.
  - destruct (stamp label context card) as [card'|] eqn:E1; [|discriminate].
    destruct (stamp_all label context cards) as [rest|]; [|discriminate].
    intros H. injection H as <-.
    destruct (IH _ eq_refl) as [Hall Hl].
    destruct card; try discriminate. simpl. auto.
Qed.

Lemma stamp_all_raises (label context : str) (cards : list json) (e : exn) :
  stamp_all label context cards = Raise e -> e = TypeError.
Proof.
  induction cards as [|card cards IH]; simpl; [discriminate|].
  destruct (stamp label context card) as [card'|e'] eqn:E1.
  - destruct (stamp_all label context cards) as [rest|e'']; [discriminate|].
    intros H. injection H as <-. now apply IH.
  - intros H. injection H as <-. destruct card; simpl in E1; congruence.
Qed.

(** X8.  The loop over the recovered value and the extension of the card
    list succeed only on a list of dictionaries (all of them are then
    kept, stamped) and on the empty dictionary and the empty string
    (nothing to keep); on any other value, a list with one item that is no
    dictionary included, a [TypeError] is raised and no card is kept. *)
Theorem stamp_cards_all_or_nothing (label context : str) (cards : json) :
  (forall out, stamp_cards label context cards = Ok out ->
     (exists items, cards = JList items /\ forallb is_dict items = true /\
                    length out = length items) \/
     (out = [] /\ (cards = JDict [] \/ cards = JStr []))) /\
  (forall e, stamp_cards label context cards = Raise e -> e = TypeError) /\
  (forall items, cards = JList items -> forallb is_dict items = false ->
     stamp_cards label context cards = Raise TypeError).
Proof.
  repeat split.
  - intros out H. destruct cards as [| | | |[|]|items|[|]]; simpl in H;
      try discriminate; try (injection H as <-; auto).
    left. apply stamp_all_ok in H. exists items. tauto.
  - intros e H. destruct cards as [| | | |[|]|items|[|]]; simpl in H;
      try discriminate; try congruence.
    eapply stamp_all_raises; eauto.
  - intros items -> Hno. simpl.
    destruct (stamp_all label context items) as [out|e] eqn:Es.
    + apply stamp_all_ok in Es. destruct Es as [Hall _]. congruence.
    + apply stamp_all_raises in Es. now subst.
Qed.

(** The world after the cards of a slide: up to three more calls, all
    with the text of the cleaned slide. *)
Lemma slide_cards_world (s : slide) (w : world) :
  exists k, (k <= 3)%nat /\
    snd (slide_cards E s w) = log_calls (full_text_of (clean_slide_content s)) k w.
Proof.
  unfold slide_cards. set (c := clean_slide_content s).
  destruct (has_meaningful_content c); cbn [negb].
  - destruct (attempts_world E max_retries c w) as (k & Hk & _ & Hw).
    exists k. split; [exact Hk|].
    destruct (attempts E max_retries c w) as [[cards|] w']; cbn [snd] in Hw |- *;
      [assumption|].
    now destruct (nonempty (title c)).
  - exists 0%nat. rewrite log_calls_0. split; [lia|reflexivity].
Qed.

Lemma generate_loop_world (slides : list slide)
    (all_cards : list json) (w : world) :
  exists new_calls,
    calls (snd (generate_loop E slides all_cards w)) = calls w ++ new_calls /\
    (length new_calls <= 3 * length slides)%nat /\
    Forall (fun text => exists s, In s slides /\
                          text = full_text_of (clean_slide_content s)) new_calls /\
    files (snd (generate_loop E slides all_cards w)) = files w.
Proof.
  revert all_cards w. induction slides as [|s slides IH]; intros all_cards w; simpl.
  - exists []. rewrite app_nil_r. repeat split; auto.
  - destruct (slide_cards_world s w) as (k & Hk & Hw).
    destruct (slide_cards E s w) as [cards w1]. simpl in Hw. subst w1.
    destruct (IH (all_cards ++ cards)
                 (log_calls (full_text_of (clean_slide_content s)) k w))
      as (new_calls & Hc & Hl & Hall & Hf).
    exists (repeat (full_text_of (clean_slide_content s)) k ++ new_calls).
    rewrite Hc, Hf. simpl. rewrite app_assoc. repeat split.
    + rewrite length_app, repeat_length. lia.
    + apply Forall_app. split.
      * apply Forall_forall. intros text Hin. apply repeat_spec in Hin.
        exists s. auto.
      * eapply Forall_impl; [|exact Hall]. simpl.
        intros text (s' & Hs' & Ht). eauto.
Qed.

(** X9.  The generator only adds to the log of the calls: after it the
    log is the old one followed by at most three calls for each slide,
    each with the text of a cleaned slide of the input; it writes no file. *)
Theorem generator_calls_at_most_three_times_per_slide (slides : list slide)
    (all_cards : list json) (w : world) :
  exists new_calls,
    calls (snd (generate_loop E slides all_cards w)) = calls w ++ new_calls /\
    (length new_calls <= 3 * length slides)%nat /\
    Forall (fun text => exists s, In s slides /\
                          text = full_text_of (clean_slide_content s)) new_calls /\
    files (snd (generate_loop E slides all_cards w)) = files w.
Proof. apply generate_loop_world. Qed.

Lemma generate_loop_app (slides1 slides2 : list slide) (all_cards : list json)
    (w : world) :
  generate_loop E (slides1 ++ slides2) all_cards w =
  generate_loop E slides2 (fst (generate_loop E slides1 all_cards w))
                          (snd (generate_loop E slides1 all_cards w)).
Proof.
  revert all_cards w. induction slides1 as [|s slides1 IH]; intros all_cards w;
    simpl; [reflexivity|].
  destruct (slide_cards E s w) as [cards w1]. apply IH.
Qed.

Lemma generate_loop_acc (slides : list slide) (all_cards : list json) (w : world) :
  generate_loop E slides all_cards w =
  (all_cards ++ fst (generate_loop E slides [] w),
   snd (generate_loop E slides [] w)).
Proof.
  revert all_cards w. induction slides as [|s slides IH]; intros all_cards w; simpl.
  - now rewrite app_nil_r.
  - destruct (slide_cards E s w) as [cards w1].
    rewrite (IH (all_cards ++ cards)), (IH ([] ++ cards)). simpl.
    now rewrite app_assoc.
Qed.

(** X10.  Generating for two lists of slides one after the other, in the
    world that the first run leaves, gives the cards of the run on the
    joined list: the cards of the first list, then those of the second. *)
Theorem generator_runs_compose (slides1 slides2 : list slide) (w : world) :
  let r1 := generate_flashcards_with_deepseek E slides1 w in
  let r2 := generate_flashcards_with_deepseek E slides2 (snd r1) in
  generate_flashcards_with_deepseek E (slides1 ++ slides2) w =
    (fst r1 ++ fst r2, snd r2).
Proof.
  unfold generate_flashcards_with_deepseek. simpl.
  rewrite generate_loop_app. now rewrite generate_loop_acc.
Qed.


Lemma log_calls_length (t : str) (k : nat) (w : world) :
  length (calls (log_calls t k w)) = (length (calls w) + k)%nat.
Proof. unfold log_calls. simpl. now rewrite length_app, repeat_length. Qed.

Lemma log_calls_add (t : str) (k n : nat) (w : world) :
  log_calls t n (log_calls t k w) = log_calls t (k + n) w.
Proof.
  unfold log_calls. simpl. now rewrite <- app_assoc, repeat_app.
Qed.

Lemma log_call_last (t : str) (k : nat) (w : world) :
  log_call t (log_calls t k w) = log_calls t (S k) w.
Proof.
  unfold log_call, log_calls. simpl. now rewrite <- app_assoc, <- repeat_cons.
Qed.

(** While the attempts fail the loop goes on. *)
Lemma attempts_after_failures (k n : nat) (c : slide) (w : world) :
  (forall i, (i < k)%nat ->
     exists e, fst (attempt E c (log_calls (full_text_of c) i w)) = Raise e) ->
  attempts E (k + n) c w = attempts E n c (log_calls (full_text_of c) k w).
Proof.
  revert w. induction k as [|k IH]; intros w H; cbn [Nat.add attempts].
  - now rewrite log_calls_0.
  - destruct (H 0%nat ltac:(lia)) as [e He]. rewrite log_calls_0 in He.
    pose proof (attempt_world E c w) as Hw.
    destruct (attempt E c w) as [r w1]. cbn [fst snd] in He, Hw. subst r w1.
    rewrite IH.
    + now rewrite log_calls_S.
    + intros i Hi. destruct (H (S i) ltac:(lia)) as [e' He'].
      exists e'. now rewrite log_calls_S.
Qed.

(** An attempt whose reply is a JSON list of dictionaries. *)
Lemma attempt_list_of_dicts (c : slide) (w : world) (reply : str) (items : list json) :
  chat_completion E (length (calls w)) (full_text_of c) = Ok reply ->
  json_loads reply = Ok (JList items) ->
  forallb is_dict items = true ->
  exists out,
    attempt E c w = (Ok out, log_call (full_text_of c) w) /\
    length out = length items /\
    Forall2 (stamped (slide_label c) (title c)) items out.
Proof.
  intros Hc Hj Hd.
  destruct (stamp_all_stamped (slide_label c) (title c) items Hd)
    as (out & Hs & Hl & Hf).
  exists out. split; [|auto].
  unfold attempt, _ask_ai_for_cards. rewrite Hc.
  unfold recover_cards, recover_with, try_except. rewrite Hj. simpl.
  now rewrite Hs.
Qed.

(** X11.  When the first [k] attempts for a slide fail, [k] being less
    than 3, and the client then answers with a JSON list of dictionaries,
    the slide adds exactly these dictionaries, in their order, stamped
    with its label and with its cleaned title as context, and [k + 1]
    calls have been made. *)
Theorem slide_cards_after_retries (s : slide) (w : world) (k : nat)
    (reply : str) (items : list json) :
  let c := clean_slide_content s in
  has_meaningful_content c = true ->
  (k < 3)%nat ->
  (forall i, (i < k)%nat ->
     exists e, fst (attempt E c (log_calls (full_text_of c) i w)) = Raise e) ->
  chat_completion E (length (calls w) + k) (full_text_of c) = Ok reply ->
  json_loads reply = Ok (JList items) ->
  forallb is_dict items = true ->
  exists out,
    slide_cards E s w = (out, log_calls (full_text_of c) (S k) w) /\
    length out = length items /\
    Forall2 (stamped (py "Slide " ++ str_of_int (slide_num s)) (title c)) items out.
Proof.
  intros c Hg Hk Hfail Hc Hj Hd.
  rewrite <- log_calls_length with (t := full_text_of c) in Hc.
  destruct (attempt_list_of_dicts c _ Hc Hj Hd) as (out & Ha & Hl & Hf).
  exists out. split; [|split; [exact Hl|]].
  - unfold slide_cards. fold c. rewrite Hg. cbn [negb].
    unfold max_retries. replace 3%nat with (k + S (2 - k))%nat by lia.
    rewrite (attempts_after_failures (S (2 - k)) c w Hfail).
    cbn [attempts]. rewrite Ha. now rewrite log_call_last.
  - unfold slide_label, c in Hf. now rewrite slide_num_clean in Hf.
Qed.

(** When all the attempts fail, for whatever reason, the loop ends
    without cards. *)
Lemma attempts_all_raise (n : nat) (c : slide) (w : world) :
  (forall i, (i < n)%nat ->
     exists e, fst (attempt E c (log_calls (full_text_of c) i w)) = Raise e) ->
  attempts E n c w = (None, log_calls (full_text_of c) n w).
Proof.
  intros H. replace n with (n + 0)%nat at 1 by lia.
  now rewrite (attempts_after_failures 0 c w H).
Qed.

(** X12.  An attempt fails when the client raises, when the recovery
    raises and when the recovered value cannot be stamped.  When the three
    attempts for a slide that passes the gate fail, for any of these
    reasons, three calls have been made and the slide adds its fallback
    card if its cleaned title is not empty, and nothing otherwise. *)
Theorem slide_cards_when_every_attempt_fails (s : slide) (w : world) :
  let c := clean_slide_content s in
  has_meaningful_content c = true ->
  (forall i, (i < 3)%nat ->
     exists e, fst (attempt E c (log_calls (full_text_of c) i w)) = Raise e) ->
  slide_cards E s w =
    (if nonempty (title c) then [fallback_card c] else [],
     log_calls (full_text_of c) 3 w).
Proof.
  intros c Hg Hfail. unfold slide_cards. fold c. rewrite Hg. cbn [negb].
  unfold max_retries. rewrite (@attempts_all_raise 3%nat c w Hfail).
  now destruct (nonempty (title c)).
Qed.

(** The three ways in which an attempt fails. *)
Lemma attempt_fails_iff (c : slide) (w : world) (e : exn) :
  fst (attempt E c w) = Raise e <->
  chat_completion E (length (calls w)) (full_text_of c) = Raise e \/
  (exists reply,
     chat_completion E (length (calls w)) (full_text_of c) = Ok reply /\
     (recover_cards reply (full_text_of c) = Raise e \/
      exists v, recover_cards reply (full_text_of c) = Ok v /\
                stamp_cards (slide_label c) (title c) v = Raise e)).
Proof.
  unfold attempt, _ask_ai_for_cards.
  destruct (chat_completion E _ _) as [reply|e0] eqn:Ec; cbn [fst].
  - destruct (recover_cards reply (full_text_of c)) as [v|e1] eqn:Er; cbn [fst].
    + split.
      * intros H. right. exists reply. split; [reflexivity|]. right. eauto.
      * intros [H|(r & Hr & [H|(v' & Hv & H)])]; try discriminate;
          injection Hr as <-; congruence.
    + split.
      * intros H. right. exists reply. split; [reflexivity|]. left. congruence.
      * intros [H|(r & Hr & [H|(v' & Hv & H)])]; try discriminate;
          injection Hr as <-; congruence.
  - split; [intros H; left; congruence|].
    intros [H|(r & Hr & _)]; congruence.
Qed.

(** X5.  For a slide of the extraction that passes the gate, three failed
    attempts always leave exactly one card, the fallback card: such a
    slide has a title. *)
Theorem extracted_slide_always_gets_a_fallback_card (i : Z) (text : str) (w : world) :
  let c := clean_slide_content (slide_of_page i text) in
  has_meaningful_content c = true ->
  (forall k, (k < 3)%nat ->
     exists e, fst (attempt E c (log_calls (full_text_of c) k w)) = Raise e) ->
  title c <> [] /\
  slide_cards E (slide_of_page i text) w =
    ([fallback_card c], log_calls (full_text_of c) 3 w).
Proof.
  intros c Hg Hfail.
  pose proof (extracted_slide_has_title i text Hg) as Ht. fold c in Ht.
  split; [exact Ht|].
  unfold slide_cards. fold c. rewrite Hg. cbn [negb].
  unfold max_retries. rewrite (@attempts_all_raise 3%nat c w Hfail).
  apply nonempty_true in Ht. now rewrite Ht.
Qed.

End GeneratorMore.

(* ===================================================================== *)
(** * From the generator to the deck *)
(* ===================================================================== *)

Section GeneratorToDeck.
Context {U : UnicodeData} {Lim : Limits}.
Variable E : env.

Lemma Forall2_in_r (A B : Type) (R : A -> B -> Prop) (l : list A) (l' : list B) (y : B) :
  Forall2 R l l' -> In y l' -> exists x, In x l /\ R x y.
Proof.
  induction 1 as [|x y' l l' Hr Hf IH]; simpl; [intros []|].
  intros [<-|Hin]; [eauto|].
  destruct (IH Hin) as (x' & Hx & Hr'). eauto.
Qed.

(** Where a card of an attempt comes from: an item of the list that the
    recovery returned for a reply of the client. *)
Lemma attempt_origin (c : slide) (w w' : world) (out : list json) (card : json) :
  attempt E c w = (Ok out, w') -> In card out ->
  exists n reply items card0,
    chat_completion E n (full_text_of c) = Ok reply /\
    recover_cards reply (full_text_of c) = Ok (JList items) /\
    In card0 items /\
    stamped (slide_label c) (title c) card0 card.
Proof.
  unfold attempt, _ask_ai_for_cards. intros Ha Hin.
  destruct (chat_completion E (length (calls w)) (full_text_of c))
    as [reply|e] eqn:Ec; [|discriminate].
  destruct (recover_cards reply (full_text_of c)) as [v|e] eqn:Er; [|discriminate].
  injection Ha as Hs _.
  destruct v as [| | | |[|]|items|[|]]; simpl in Hs; try discriminate;
    try (injection Hs as <-; destruct Hin).
  destruct (stamp_all_ok _ _ _ Hs) as [Hd _].
  destruct (stamp_all_stamped (slide_label c) (title c) items Hd)
    as (out' & Hs' & _ & Hf).
  assert (out' = out) by congruence. subst out'.
  destruct (@Forall2_in_r _ _ _ _ _ card Hf Hin) as (card0 & Hin0 & Hst).
  exists (length (calls w)), reply, items, card0. auto.
Qed.

Lemma attempts_origin (n : nat) (c : slide) (w w' : world) (out : list json)
    (card : json) :
  attempts E n c w = (Some out, w') -> In card out ->
  exists k reply items card0,
    chat_completion E k (full_text_of c) = Ok reply /\
    recover_cards reply (full_text_of c) = Ok (JList items) /\
    In card0 items /\
    stamped (slide_label c) (title c) card0 card.
Proof.
  revert w. induction n as [|n IH]; intros w; simpl; [discriminate|].
  destruct (attempt E c w) as [[out1|e] w1] eqn:Ea; [|apply IH].
  intros H Hin. injection H as <- _. eapply attempt_origin; eauto.
Qed.

(** Where a card of a slide comes from: it is the fallback card of the
    slide, or an item of a recovered list, stamped. *)
Lemma slide_cards_origin (s : slide) (w : world) (card : json) :
  let c := clean_slide_content s in
  In card (fst (slide_cards E s w)) ->
  (card = fallback_card c /\ title c <> []) \/
  exists k reply items card0,
    chat_completion E k (full_text_of c) = Ok reply /\
    recover_cards reply (full_text_of c) = Ok (JList items) /\
    In card0 items /\
    stamped (slide_label c) (title c) card0 card.
Proof.
  intros c. unfold slide_cards. fold c.
  destruct (has_meaningful_content c); cbn [negb fst In]; [|contradiction].
  destruct (attempts E max_retries c w) as [[cards|] w'] eqn:Ea; cbn [fst].
  - intros Hin. right. eapply attempts_origin; eauto.
  - destruct (nonempty (title c)) eqn:En; cbn [fst In]; [|contradiction].
    intros [<-|[]]. left. split; [reflexivity|now apply nonempty_true].
Qed.

(** X13.  Every card that the generator returns is a dictionary whose
    context is the cleaned title of a slide of the input, when the card
    was recovered from a reply of the client, or the text that marks the
    fallback card; the context that the model may have given is replaced. *)
Theorem every_card_carries_its_context (slides : list slide) (w : world) (card : json) :
  In card (fst (generate_flashcards_with_deepseek E slides w)) ->
  is_dict card = true /\
  exists s, In s slides /\
    (card_get (py "context") card = Some (JStr (title (clean_slide_content s))) \/
     (card = fallback_card (clean_slide_content s) /\
      card_get (py "context") card = Some (JStr failure_context))).
Proof.
  intros Hin. apply generate_loop_cards in Hin.
  destruct Hin as [[]|(s & w0 & Hs & Hin)].
  apply slide_cards_origin in Hin.
  destruct Hin as [[-> _]|(k & reply & items & card0 & _ & _ & _ & Hst)].
  - split; [reflexivity|]. exists s. split; [exact Hs|]. right. split; reflexivity.
  - destruct Hst as (Hd & _ & Hc & _). split; [exact Hd|].
    exists s. auto.
Qed.

Lemma fallback_card_has_keys (c : slide) : has_card_keys (fallback_card c).
Proof.
  eexists. split; [reflexivity|]. repeat split; vm_compute; discriminate.
Qed.

Lemma stamped_has_keys (label context : str) (card0 card : json) :
  stamped label context card0 card ->
  has_question_and_answer card0 -> has_card_keys card.
Proof.
  intros (Hd & Hs & _ & Ho) [Hq Ha].
  destruct card as [| | | | | |d]; try discriminate.
  exists d. split; [reflexivity|]. simpl in *.
  rewrite <- (Ho (py "question")) in Hq by (vm_compute; discriminate).
  rewrite <- (Ho (py "answer")) in Ha by (vm_compute; discriminate).
  repeat split; try assumption. rewrite Hs. discriminate.
Qed.

(** X14.  When every item of every list that the recovery returns for a
    reply of the client has a question and an answer, the deck is built
    from the cards of the generator without an exception, with one note
    for each card. *)
Theorem deck_builds_from_cards_with_question_and_answer
    (slides : list slide) (w : world) (name : str) :
  (forall k text reply items card0,
     chat_completion E k text = Ok reply ->
     recover_cards reply text = Ok (JList items) ->
     In card0 items -> has_question_and_answer card0) ->
  exists d,
    create_anki_deck E (fst (generate_flashcards_with_deepseek E slides w)) name = Ok d /\
    length (notes d) =
      length (fst (generate_flashcards_with_deepseek E slides w)).
Proof.
  intros H.
  assert (Hall : Forall has_card_keys
                   (fst (generate_flashcards_with_deepseek E slides w))).
  { apply Forall_forall. intros card Hin. apply generate_loop_cards in Hin.
    destruct Hin as [[]|(s & w0 & Hs & Hin)].
    apply slide_cards_origin in Hin.
    destruct Hin as [[-> _]|(k & reply & items & card0 & Hc & Hr & Hi & Hst)].
    - apply fallback_card_has_keys.
    - eapply stamped_has_keys; eauto. }
  unfold create_anki_deck.
  destruct (add_notes_spec {| deck_id := random_deck_id E; deck_name := name;
                              notes := [] |} Hall) as (ns & Hns & ->).
  eexists. split; [reflexivity|]. simpl.
  symmetry. eapply Forall2_length; eauto.
Qed.

(** The pairs of the manual extraction have a question and an answer. *)
Lemma qa_pair_has_question_and_answer (card : json) :
  is_qa_pair card -> has_question_and_answer card.
Proof.
  intros (q & a & ->). split; vm_compute; discriminate.
Qed.

Lemma add_notes_raises_key_error (cards : list json) (d : deck) (e : exn) :
  Forall (fun card => is_dict card = true /\ card_get (py "slide") card <> None) cards ->
  add_notes cards d = Raise e ->
  e = KeyError (py "question") \/ e = KeyError (py "answer").
Proof.
  revert d. induction cards as [|card cards IH]; intros d Hall; simpl;
    [discriminate|].
  inversion Hall as [|? ? [Hd Hs] Hcs]; subst.
  destruct card as [| | | | | |items]; try discriminate.
  unfold note_of_card, card_item. simpl in Hs.
  destruct (dict_get (py "question") items); [|intros H; injection H as <-; auto].
  destruct (dict_get (py "answer") items); [|intros H; injection H as <-; auto].
  destruct (dict_get (py "slide") items); [|contradiction].
  now apply IH.
Qed.

(** X15.  On the cards of the generator the deck builder can only fail
    for a card without question or without answer: the exception is the
    [KeyError] of one of these two keys, never that of the slide and never
    a [TypeError]. *)
Theorem create_anki_deck_fails_only_without_question_or_answer
    (slides : list slide) (w : world) (name : str) (e : exn) :
  create_anki_deck E (fst (generate_flashcards_with_deepseek E slides w)) name = Raise e ->
  e = KeyError (py "question") \/ e = KeyError (py "answer").
Proof.
  unfold create_anki_deck. apply add_notes_raises_key_error.
  apply Forall_forall. intros card Hin. apply generate_loop_cards in Hin.
  destruct Hin as [[]|(s & w0 & Hs & Hin)].
  apply slide_cards_has_label in Hin. destruct Hin as [_ (d & -> & Hl)].
  split; [reflexivity|]. simpl. rewrite Hl. discriminate.
Qed.

End GeneratorToDeck.

(* ===================================================================== *)
(** * The recovery chain, beyond the claims *)
(* ===================================================================== *)

Section RecoveryMore.
Context {U : UnicodeData} {Lim : Limits}.

(** A match of the pattern of stage 2 starts with an opening bracket. *)
Lemma json_array_match_starts_with_bracket (at_ : nat) (cs : str) (st : mstate) :
  match_at true json_array_pattern at_ cs = Some st ->
  exists cs', cs = ch "[" :: cs'.
Proof.
  unfold match_at, json_array_pattern. cbn [seq fold_right lit map py
    list_ascii_of_string run rest].
  destruct cs as [|c cs]; [discriminate|].
  destruct (atom_ok true (AChar (N_of_ascii "["%char)) c) eqn:Ec; [|discriminate].
  intros _. exists cs. f_equal. unfold atom_ok, char_eqb in Ec.
  now apply N.eqb_eq in Ec.
Qed.

Lemma search_needs_bracket (cs : str) (at_ : nat) :
  ~ In (ch "[") cs -> search_from true json_array_pattern at_ cs = None.
Proof.
  revert at_. induction cs as [|c cs IH]; intros at_ Hno; cbn [search_from].
  - destruct (match_at true json_array_pattern at_ []) eqn:Em; [|reflexivity].
    apply json_array_match_starts_with_bracket in Em.
    destruct Em as [cs' Em]. discriminate.
  - destruct (match_at true json_array_pattern at_ (c :: cs)) eqn:Em.
    + apply json_array_match_starts_with_bracket in Em.
      destruct Em as [cs' Em]. injection Em as -> _. exfalso. apply Hno. now left.
    + apply IH. intros Hin. apply Hno. now right.
Qed.

(** X16.  A reply without opening bracket that is no JSON goes straight
    to the manual extraction: the result is its list of pairs, which is
    not empty. *)
Theorem recover_cards_without_bracket (cards_text slide_text : str) :
  ~ In (ch "[") cards_text ->
  json_loads cards_text = Raise JSONDecodeError ->
  embedded_json_array cards_text = Ok None /\
  recover_cards cards_text slide_text =
    Ok (JList (manual_extraction cards_text slide_text)) /\
  manual_extraction cards_text slide_text <> [] /\
  Forall is_qa_pair (manual_extraction cards_text slide_text).
Proof.
  intros Hno Hj.
  assert (He : embedded_json_array cards_text = Ok None).
  { unfold embedded_json_array, re_search.
    now rewrite search_needs_bracket by exact Hno. }
  split; [exact He|]. split.
  - unfold recover_cards, recover_with, try_except. rewrite Hj. simpl.
    unfold decode_error_handler. now rewrite He.
  - destruct (manual_extraction_nonempty cards_text slide_text)
      as (card & cards & -> & Hall).
    split; [discriminate|exact Hall].
Qed.

(** Replacing every character of a class by nothing leaves the other
    characters. *)
Lemma sub_atom_filter (dotall : bool) (a : atom) (cs : str) (at_ : nat) :
  sub_scan dotall (Atom a) [] at_ 0 cs =
  filter (fun c => negb (atom_ok dotall a c)) cs.
Proof.
  revert at_. induction cs as [|c cs IH]; intros at_.
  - reflexivity.
  - cbn [sub_scan filter Nat.eqb]. unfold match_at. cbn [run rest pos caps].
    destruct (atom_ok dotall a c); cbn [negb pos expand flat_map app].
    + replace (S at_ - at_)%nat with 1%nat by lia. cbn [Nat.eqb Nat.pred app].
      apply IH.
    + cbn [Nat.pred app]. f_equal. apply IH.
Qed.

Lemma strip_quotes_spec (s : str) :
  strip (strip_quotes s) = strip_quotes s /\
  ~ In dquote (strip_quotes s) /\ ~ In squote (strip_quotes s).
Proof.
  unfold strip_quotes, re_sub. rewrite sub_atom_filter.
  split; [apply strip_idem|].
  split; intros Hin; apply strip_incl, filter_In in Hin;
    destruct Hin as [_ Hin]; vm_compute in Hin; discriminate.
Qed.

(** X17.  The pairs of stage 3 have a question and an answer without
    white space around them; so have the pairs of stage 4, which moreover
    hold no quote character, and there are as many of them as the shorter
    of the two lists of fragments has items. *)
Theorem manual_pairs_are_stripped (cards_text : str) :
  Forall (pair_of (fun x => strip x = x)) (qa_pairs cards_text) /\
  Forall (pair_of (fun x => strip x = x /\ ~ In dquote x /\ ~ In squote x))
         (lenient_pairs cards_text) /\
  length (lenient_pairs cards_text) =
    Nat.min (length (re_findall false q_block_pattern cards_text))
            (length (re_findall false a_block_pattern cards_text)).
Proof.
  repeat split.
  - unfold qa_pairs. apply Forall_forall. intros card Hin.
    apply in_map_iff in Hin. destruct Hin as (m & <- & _).
    do 2 eexists. split; [reflexivity|]. split; apply strip_idem.
  - unfold lenient_pairs. apply Forall_forall. intros card Hin.
    apply in_map_iff in Hin. destruct Hin as (m & <- & _).
    do 2 eexists. split; [reflexivity|]. split; apply strip_quotes_spec.
  - unfold lenient_pairs. now rewrite length_map, length_combine, !length_map.
Qed.

End RecoveryMore.

(* ===================================================================== *)
(** * Paths and the pipeline, beyond the claims *)
(* ===================================================================== *)

Section PathFacts.
Local Open Scope Z_scope.

Lemma rfind_from_spec (c : char) (s : str) :
  forall i last,
    let r := rfind_from c s i last in
    (r = last /\ ~ In c s) \/
    (i <= r < i + Z.of_nat (length s) /\
     nth_error s (Z.to_nat (r - i)) = Some c /\
     ~ In c (skipn (S (Z.to_nat (r - i))) s)).
Proof.
  induction s as [|x s IH]; intros i last; cbn [rfind_from].
  - left. split; [reflexivity|intros []].
  - specialize (IH (i + 1) (if char_eqb x c then i else last)).
    cbv zeta in IH |- *.
    destruct IH as [[Hr Hno]|(Hb & Hn & Hno)].
    + rewrite Hr. destruct (char_eqb x c) eqn:Ex.
      * right. apply N.eqb_eq in Ex. subst x.
        rewrite Z.sub_diag. cbn [length]. repeat split; try lia. exact Hno.
      * left. split; [reflexivity|]. intros [->|Hin]; [|auto].
        unfold char_eqb in Ex. now rewrite N.eqb_refl in Ex.
    + right. cbn [length].
      replace (Z.to_nat (rfind_from c s (i + 1) (if char_eqb x c then i else last) - i))
        with (S (Z.to_nat (rfind_from c s (i + 1)
                             (if char_eqb x c then i else last) - (i + 1))))
        by lia.
      repeat split; try lia; assumption.
Qed.

(** [rfind] gives -1 when the character is not there, and else the index
    of an occurrence after which there is no other. *)
Lemma rfind_spec (c : char) (s : str) :
  (rfind c s = -1 /\ ~ In c s) \/
  (0 <= rfind c s < Z.of_nat (length s) /\
   nth_error s (Z.to_nat (rfind c s)) = Some c /\
   ~ In c (skipn (S (Z.to_nat (rfind c s))) s)).
Proof.
  unfold rfind. destruct (rfind_from_spec c s 0 (-1)) as [H|(Hb & Hn & Hno)];
    [left; exact H|right].
  rewrite Z.sub_0_r in Hn, Hno. repeat split; try lia; assumption.
Qed.

Lemma in_skipn (A : Type) (x : A) (n : nat) (l : list A) :
  In x (skipn n l) -> In x l.
Proof.
  revert l. induction n as [|n IH]; intros [|y l]; simpl; try tauto.
  intros H. right. now apply IH.
Qed.

Lemma in_firstn (A : Type) (x : A) (n : nat) (l : list A) :
  In x (firstn n l) -> In x l.
Proof.
  revert l. induction n as [|n IH]; intros [|y l]; simpl; try tauto.
  intros [H|H]; auto.
Qed.

Lemma skipn_nth_error (A : Type) (n : nat) (l : list A) (x : A) :
  nth_error l n = Some x -> skipn n l = x :: skipn (S n) l.
Proof.
  revert l. induction n as [|n IH]; intros [|y l]; simpl; try discriminate.
  - intros H. now injection H as ->.
  - apply IH.
Qed.

Lemma basename_no_slash (p : str) : ~ In (ch "/") (basename p).
Proof.
  unfold basename.
  destruct (rfind_spec (ch "/") p) as [[-> Hno]|(Hb & _ & Hno)].
  - exact Hno.
  - now replace (Z.to_nat (rfind (ch "/") p + 1))
      with (S (Z.to_nat (rfind (ch "/") p))) by lia.
Qed.

Lemma splitext_spec (p : str) :
  fst (splitext p) ++ snd (splitext p) = p /\
  (snd (splitext p) = [] \/
   exists e, snd (splitext p) = ch "." :: e /\
             ~ In (ch ".") e /\ ~ In (ch "/") e).
Proof.
  unfold splitext.
  destruct ((rfind (ch "/") p <? rfind (ch ".") p) && _) eqn:Ec; cbn [fst snd].
  - split; [apply firstn_skipn|]. right.
    apply andb_true_iff in Ec. destruct Ec as [Hlt _]. apply Z.ltb_lt in Hlt.
    destruct (rfind_spec (ch ".") p) as [[Hd _]|(Hb & Hn & Hno)].
    + destruct (rfind_spec (ch "/") p) as [[Hs _]|(Hbs & _)]; lia.
    + exists (skipn (S (Z.to_nat (rfind (ch ".") p))) p).
      split; [now apply skipn_nth_error|]. split; [exact Hno|].
      destruct (rfind_spec (ch "/") p) as [[_ Hs]|(Hbs & _ & Hs)].
      * intros Hin. apply Hs. eapply in_skipn; eauto.
      * intros Hin. apply Hs.
        replace (S (Z.to_nat (rfind (ch ".") p)))
          with ((Z.to_nat (rfind (ch ".") p) - Z.to_nat (rfind (ch "/") p))
                + S (Z.to_nat (rfind (ch "/") p)))%nat in Hin by lia.
        rewrite <- skipn_skipn in Hin. eapply in_skipn; eauto.
  - split; [apply app_nil_r|now left].
Qed.

End PathFacts.

(** X20.  The root and the extension into which a path is split give the
    path back when joined, and the extension is empty or a dot followed
    by text without dot and without slash. *)
Theorem splitext_round_trip (p : str) :
  fst (splitext p) ++ snd (splitext p) = p /\
  (snd (splitext p) = [] \/
   exists e, snd (splitext p) = ch "." :: e /\
             ~ In (ch ".") e /\ ~ In (ch "/") e).
Proof. apply splitext_spec. Qed.

Section PipelineFacts.
Context {U : UnicodeData} {Lim : Limits}.
Variable E : env.


(** The folder of the downloads is the home directory followed by its
    name. *)
Lemma downloads_folder_shape (h : str) :
  exists prefix, path_join h (py "Downloads") = prefix ++ py "Downloads".
Proof.
  assert (H0 : starts_with [ch "/"] (py "Downloads") = false) by reflexivity.
  unfold path_join. rewrite H0.
  destruct (negb (nonempty h) || starts_with [ch "/"] (rev h)).
  - exists h. reflexivity.
  - exists (h ++ [ch "/"]). now rewrite <- app_assoc.
Qed.

Lemma path_join_into_downloads (prefix base : str) :
  ~ In (ch "/") base ->
  path_join (prefix ++ py "Downloads") (base ++ py "_flashcards.apkg") =
  (prefix ++ py "Downloads") ++ [ch "/"] ++ base ++ py "_flashcards.apkg".
Proof.
  intros Hno. unfold path_join.
  assert (H1 : starts_with [ch "/"] (base ++ py "_flashcards.apkg") = false).
  { destruct base as [|x base]; [reflexivity|].
    cbn [app starts_with].
    destruct (char_eqb (ch "/") x) eqn:Ex; [|reflexivity].
    apply N.eqb_eq in Ex. exfalso. apply Hno. now left. }
  assert (H2 : nonempty (prefix ++ py "Downloads") = true)
    by (destruct prefix; reflexivity).
  assert (H3 : starts_with [ch "/"] (rev (prefix ++ py "Downloads")) = false)
    by (rewrite rev_app_distr; reflexivity).
  now rewrite H1, H2, H3.
Qed.


(** X19.  The package goes into the folder Downloads of the home
    directory, under the name of the input file without its directories
    and without its extension, followed by _flashcards.apkg: the name has
    no slash in it, so the file is written nowhere else. *)
Theorem process_file_writes_into_downloads (file_path name : str) (w : world)
    (n : nat) (output_path : str) :
  fst (process_file E file_path name w) = Ok (n, output_path) ->
  let base_name := fst (splitext (basename file_path)) in
  output_path = path_join (home E) (py "Downloads") ++ [ch "/"] ++ base_name
                ++ py "_flashcards.apkg" /\
  ~ In (ch "/") base_name /\
  base_name ++ snd (splitext (basename file_path)) = basename file_path.
Proof.
  intros H base_name.
  assert (Hno : ~ In (ch "/") base_name).
  { unfold base_name. intros Hin.
    apply (basename_no_slash file_path).
    rewrite <- (proj1 (splitext_spec (basename file_path))).
    apply in_or_app. now left. }
  split; [|split; [exact Hno|apply splitext_spec]].
  revert H. unfold process_file.
  destruct (str_eqb _ (py ".pdf")); [|discriminate].
  destruct (extract_from_pdf E file_path); [|discriminate].
  destruct (generate_flashcards_with_deepseek E _ w) as [cards w1].
  destruct (create_anki_deck E cards name) as [d|]; [|discriminate].
  destruct (package_write E _ d); [discriminate|].
  cbn [fst]. intros H. injection H as _ <-.
  destruct (downloads_folder_shape (home E)) as [prefix ->].
  now apply path_join_into_downloads.
Qed.


End PipelineFacts.

(* ===================================================================== *)
(** * The pipeline when the client is down *)
(* ===================================================================== *)

Section ClientDown.
Context {U : UnicodeData} {Lim : Limits}.
Variable E : env.
Hypothesis client_down : forall n text, exists e, chat_completion E n text = Raise e.

Lemma slide_cards_client_down (s : slide) (w : world) :
  fst (slide_cards E s w) = fallback_cards_of s.
Proof.
  unfold slide_cards, fallback_cards_of.
  set (c := clean_slide_content s).
  destruct (has_meaningful_content c); cbn [negb andb fst]; [|reflexivity].
  unfold max_retries.
  rewrite (@attempts_all_fail U Lim E 3%nat c w) by (intros i _; apply client_down).
  now destruct (nonempty (title c)).
Qed.

Lemma generate_loop_client_down (slides : list slide) (all_cards : list json)
    (w : world) :
  fst (generate_loop E slides all_cards w) =
  all_cards ++ flat_map fallback_cards_of slides.
Proof.
  revert all_cards w. induction slides as [|s slides IH]; intros all_cards w; simpl.
  - now rewrite app_nil_r.
  - pose proof (slide_cards_client_down s w) as Hs.
    destruct (slide_cards E s w) as [cards w1]. simpl in Hs. subst cards.
    now rewrite IH, app_assoc.
Qed.

(** X22.  With a client that raises at every call, the generator returns
    the fallback cards of the slides that pass the gate and have a title,
    in the order of the slides, and nothing else. *)
Theorem generator_with_client_down (slides : list slide) (w : world) :
  fst (generate_flashcards_with_deepseek E slides w) =
  flat_map fallback_cards_of slides.
Proof.
  unfold generate_flashcards_with_deepseek.
  now rewrite generate_loop_client_down.
Qed.

Lemma slides_of_pages_in (pages : list str) (start : Z) (s : slide) :
  In s (slides_of_pages start pages) -> exists i text, s = slide_of_page i text.
Proof.
  revert start. induction pages as [|p pages IH]; intros start; simpl; [intros []|].
  intros [<-|Hin]; eauto.
Qed.

Lemma fallback_cards_of_extracted (slides : list slide) :
  (forall s, In s slides -> exists i text, s = slide_of_page i text) ->
  length (flat_map fallback_cards_of slides) = length (filter passes_gate slides) /\
  Forall has_card_keys (flat_map fallback_cards_of slides).
Proof.
  induction slides as [|s slides IH]; intros H; simpl; [split; [reflexivity|constructor]|].
  destruct IH as [IHl IHf]; [intros s' Hs'; apply H; now right|].
  destruct (H s (or_introl eq_refl)) as (i & text & ->).
  unfold fallback_cards_of at 1 3, passes_gate at 1.
  pose proof (extracted_slide_has_title i text) as Ht.
  destruct (has_meaningful_content (clean_slide_content (slide_of_page i text)));
    cbn [andb].
  - specialize (Ht eq_refl). apply nonempty_true in Ht. rewrite Ht.
    cbn [app length]. split; [now rewrite IHl|].
    constructor; [apply fallback_card_has_keys|exact IHf].
  - cbn [app]. auto.
Qed.

(** X23.  With a client that raises at every call, [process_file] still
    returns for a PDF that can be read, when the package can be written:
    the deck has one fallback card for each page whose slide passes the
    gate, and the number returned is the number of these pages. *)
Theorem process_file_with_client_down (file_path name : str) (w : world)
    (pages : list str) :
  lower (snd (splitext file_path)) = py ".pdf" ->
  pdf_pages E file_path = Ok pages ->
  (forall output_path d, package_write E output_path d = None) ->
  exists output_path,
    fst (process_file E file_path name w) =
      Ok (length (filter passes_gate (slides_of_pages 1 pages)), output_path).
Proof.
  intros Hx Hp Hw. unfold process_file, extract_from_pdf.
  apply str_eqb_eq in Hx. rewrite Hx, Hp.
  unfold generate_flashcards_with_deepseek.
  pose proof (generate_loop_client_down (slides_of_pages 1 pages) [] w) as Hg.
  destruct (generate_loop E (slides_of_pages 1 pages) [] w) as [cards w1].
  cbn [fst app] in Hg. subst cards.
  destruct (fallback_cards_of_extracted (slides_of_pages 1 pages)
              (slides_of_pages_in pages 1)) as [Hl Hf].
  unfold create_anki_deck.
  destruct (add_notes_spec {| deck_id := random_deck_id E; deck_name := name;
                              notes := [] |} Hf) as (ns & _ & ->).
  rewrite Hw. eexists. cbn [fst]. now rewrite Hl.
Qed.

End ClientDown.
(* ===================================================================== *)
(** * The properties on example data, evaluated with [ascii_tables] and
      [default_limits] *)
(* ===================================================================== *)

#[local] Existing Instance ascii_tables.
#[local] Existing Instance default_limits.

(** C1, as stated, fails on the response that the prompt itself asks for
    when a slide has too little content: the empty array is returned as
    it is, and it is not a list with a first pair. *)
Lemma recover_cards_empty_array_cx :
  json_loads (py "[]") = Ok (JList []) /\
  recover_cards (py "[]") (full_text_of trees_slide) = Ok (JList []) /\
  ~ (exists card cards,
       recover_cards (py "[]") (full_text_of trees_slide) = Ok (JList (card :: cards))).
Proof.
  repeat split; try (vm_compute; reflexivity).
  intros (card & cards & H). vm_compute in H. discriminate.
Qed.

(** A response that stage 3 recovers: the decoder rejects it, there is no
    bracketed array in it, and the pattern finds one pair. *)
Lemma recover_cards_outcome_witness :
  exists v,
    recover_cards (pyq "question: 'What is a heap?', answer: 'A tree'")
                  (full_text_of graphs_slide) = Ok v /\
    v = JList [qa_card (JStr (py "What is a heap?")) (JStr (py "A tree"))].
Proof.
  destruct (recover_cards_outcome
              (pyq "question: 'What is a heap?', answer: 'A tree'")
              (full_text_of graphs_slide)) as (v & Hv & _).
  - intros e H. vm_compute in H. congruence.
  - intros e H. vm_compute in H. discriminate.
  - exists v. split; [exact Hv|].
    vm_compute in Hv. injection Hv as <-. vm_compute. reflexivity.
Defined.

(** Beyond the limits of the interpreter the decoder raises an error that
    is no decoding error, and that one does come out of the recovery: here
    for an integer of 4301 digits, one over the limit of 4300. *)
Example recover_cards_over_the_digit_limit :
  exists msg,
    recover_cards (repeat (ch "1") 4301) (full_text_of trees_slide) =
      Raise (ValueError msg).
Proof. eexists. vm_compute. reflexivity. Qed.

(** C2, as stated, fails on a slide whose content starts with an empty
    line: the content has a line that is not empty, the title matches the
    second pattern, and the slide comes back unchanged.  It also fails on
    a slide whose first content line ends with spaces: the new title is
    the line without them. *)
Lemma clean_slide_content_blank_first_line_cx :
  (matches_header (title blank_first_line_slide) = true /\
   first_nonempty_line (content blank_first_line_slide) = Some (py "Graph search") /\
   clean_slide_content blank_first_line_slide = blank_first_line_slide /\
   title (clean_slide_content blank_first_line_slide) <> py "Graph search") /\
  (matches_header (title padded_slide) = true /\
   first_nonempty_line (content padded_slide) = Some (py "Heaps  ") /\
   title (clean_slide_content padded_slide) = py "Heaps" /\
   title (clean_slide_content padded_slide) <> py "Heaps  ").
Proof.
  repeat split; try (vm_compute; reflexivity); vm_compute; discriminate.
Qed.

Lemma clean_slide_content_promotes_first_line_witness :
  matches_header (title numbered_slide) = true /\
  strip (first_line (content numbered_slide)) <> [] /\
  clean_slide_content numbered_slide =
    {| title := py "8"; content := py "9" ++ [nl] ++ py "Heaps"; slide_num := 7 |}.
Proof.
  assert (Hm : matches_header (title numbered_slide) = true)
    by (vm_compute; reflexivity).
  assert (Hl : strip (first_line (content numbered_slide)) <> [])
    by (vm_compute; discriminate).
  split; [exact Hm|]. split; [exact Hl|].
  rewrite (proj1 (clean_slide_content_promotes_first_line numbered_slide) Hm Hl).
  vm_compute. reflexivity.
Defined.

(** C3, as stated, fails on a slide that passes the gate by its content
    and has no title: after the three calls have failed no card is added. *)
Lemma no_fallback_card_without_title_cx :
  has_meaningful_content (clean_slide_content untitled_slide) = true /\
  (forall n, chat_completion (env_with failing_client []) n
               (full_text_of (clean_slide_content untitled_slide)) = Raise ClientError) /\
  slide_cards (env_with failing_client []) untitled_slide new_world =
    ([], log_calls (full_text_of untitled_slide) 3 new_world).
Proof.
  repeat split; vm_compute; reflexivity.
Qed.

Lemma fallback_card_after_three_failures_witness :
  slide_cards (env_with failing_client []) trees_slide new_world =
    ([JDict [(py "question", JStr (py "Explain the concept of: Trees"));
             (py "answer", JStr (py "Review the slide content."));
             (py "slide", JStr (py "Slide 2"));
             (py "context", JStr (py "Auto-generated (DeepSeek API failed)"))]],
     log_calls (full_text_of trees_slide) 3 new_world).
Proof.
  assert (Hg : has_meaningful_content (clean_slide_content trees_slide) = true)
    by (vm_compute; reflexivity).
  assert (Hf : forall i, (i < 3)%nat ->
            exists e, chat_completion (env_with failing_client [])
                        (length (calls new_world) + i)
                        (full_text_of (clean_slide_content trees_slide)) = Raise e)
    by (intros i _; exists ClientError; reflexivity).
  assert (Ht : title (clean_slide_content trees_slide) <> [])
    by (vm_compute; discriminate).
  rewrite (proj1 (fallback_card_after_three_failures
                    (env_with failing_client []) trees_slide new_world Hg Hf) Ht).
  vm_compute. reflexivity.
Defined.

(** The response of the witness is one that the quote repair of stage 2
    would spoil: the repaired text is no JSON. *)
Lemma recover_cards_stage1_only_witness :
  json_loads (repair_quotes two_cards_reply) = Raise JSONDecodeError /\
  recover_cards two_cards_reply (full_text_of graphs_slide) =
    Ok (JList [qa_card (JStr (py "What is a graph?")) (JStr (py "Nodes and edges"));
               qa_card (JStr (py "What is a tree?"))
                       (JStr (py "A connected graph: no cycle"))]).
Proof.
  split; [vm_compute; reflexivity|].
  apply (recover_cards_stage1_only two_cards_reply (full_text_of graphs_slide)).
  vm_compute. reflexivity.
Defined.

Lemma recover_cards_last_resort_witness :
  recover_cards (py "Sorry, I cannot help with that.") (full_text_of graphs_slide) =
    Ok (JList [qa_card (JStr (py "Review this slide"))
                       (JStr (py "Title: Graphs" ++ [nl; nl]
                              ++ py "Content: Nodes and edges"))]).
Proof.
  apply (recover_cards_last_resort (py "Sorry, I cannot help with that.")
           (full_text_of graphs_slide)); vm_compute; reflexivity.
Defined.

Lemma meaningful_content_gate_witness :
  slide_cards (env_with failing_client [])
    {| title := py "Hi"; content := py "short"; slide_num := 4 |} new_world =
    ([], new_world) /\
  exists k, (1 <= k <= 3)%nat /\
    snd (slide_cards (env_with (replies_once two_cards_reply) []) graphs_slide new_world) =
    log_calls (full_text_of (clean_slide_content graphs_slide)) k new_world.
Proof.
  split.
  - apply (proj1 (meaningful_content_gate (env_with failing_client [])
             {| title := py "Hi"; content := py "short"; slide_num := 4 |} new_world));
      vm_compute; lia.
  - apply (proj2 (meaningful_content_gate (env_with (replies_once two_cards_reply) [])
             graphs_slide new_world)).
    left. vm_compute. lia.
Defined.

(** Two slides, the first with two cards from the model and the second
    with three failed calls: three cards, the third with the fallback
    context, and each with the label of its slide. *)
Lemma every_card_carries_its_slide_label_witness :
  length (fst (generate_flashcards_with_deepseek
                 (env_with (replies_once two_cards_reply) [])
                 [graphs_slide; trees_slide] new_world)) = 3%nat /\
  exists s, In s [graphs_slide; trees_slide] /\
    has_meaningful_content (clean_slide_content s) = true /\
    has_label (py "Slide " ++ str_of_int (slide_num s)) (fallback_card trees_slide) /\
    py "Slide " ++ str_of_int (slide_num s) <> [].
Proof.
  split; [vm_compute; reflexivity|].
  apply (proj1 (every_card_carries_its_slide_label
                  (env_with (replies_once two_cards_reply) [])
                  [graphs_slide; trees_slide] new_world)).
  vm_compute. auto.
Defined.

(** C8, as stated, fails on a card list that the generator itself returns
    when the model answers with an object that has no question: the card
    is stamped and kept, and the deck builder raises on it. *)
Lemma create_anki_deck_missing_question_cx :
  let E := env_with (replies_once (pyq "[{'q': 'What is a graph?'}]")) [] in
  let cards := [JDict [(py "q", JStr (py "What is a graph?"));
                       (py "slide", JStr (py "Slide 1"));
                       (py "context", JStr (py "Graphs"))]] in
  fst (generate_flashcards_with_deepseek E [graphs_slide] new_world) = cards /\
  create_anki_deck E cards (py "Deck") = Raise (KeyError (py "question")).
Proof.
  split; vm_compute; reflexivity.
Qed.

Lemma create_anki_deck_one_note_per_card_witness :
  let E := env_with (replies_once two_cards_reply) [] in
  let cards := fst (generate_flashcards_with_deepseek E [graphs_slide; trees_slide] new_world) in
  exists d, create_anki_deck E cards (py "Deck") = Ok d /\
    deck_name d = py "Deck" /\
    length (notes d) = length cards /\
    Forall2 shows cards (notes d).
Proof.
  apply (proj1 (create_anki_deck_one_note_per_card
                  (env_with (replies_once two_cards_reply) [])
                  (fst (generate_flashcards_with_deepseek
                          (env_with (replies_once two_cards_reply) [])
                          [graphs_slide; trees_slide] new_world))
                  (py "Deck"))).
  vm_compute.
  repeat constructor; eexists; (split; [reflexivity|]);
    repeat split; discriminate.
Defined.

Lemma process_file_rejects_other_extensions_witness :
  process_file (env_with (replies_once two_cards_reply) [py "Graphs"])
    (py "/home/user/talk.pptx") (py "Deck") new_world =
    (Raise (ValueError (py "Unsupported file format: .pptx")), new_world) /\
  calls (snd (process_file (env_with (replies_once two_cards_reply) [py "Graphs"])
                (py "/home/user/talk.pptx") (py "Deck") new_world)) = [].
Proof.
  apply (process_file_rejects_other_extensions
           (env_with (replies_once two_cards_reply) [py "Graphs"])
           (py "/home/user/talk.pptx") (py "Deck") new_world).
  vm_compute. discriminate.
Defined.

(** The whole pipeline on a PDF of two pages. *)
Example process_file_two_pages :
  let E := env_with (replies_once two_cards_reply)
             [py "Graphs" ++ [nl] ++ py "Nodes and edges"; py "Trees"] in
  let r := process_file E (py "/home/user/talk.PDF") (py "Deck") new_world in
  fst r = Ok (3%nat, py "/home/user/Downloads/talk_flashcards.apkg") /\
  length (calls (snd r)) = 4%nat /\
  map fst (files (snd r)) = [py "/home/user/Downloads/talk_flashcards.apkg"].
Proof. vm_compute. repeat split; reflexivity. Qed.

(* ===================================================================== *)
(** * The further properties on example data *)
(* ===================================================================== *)

Lemma extracted_slide_always_gets_a_fallback_card_witness :
  title (clean_slide_content (slide_of_page 2 (py "Trees"))) <> [] /\
  slide_cards (env_with failing_client []) (slide_of_page 2 (py "Trees")) new_world =
    ([fallback_card trees_slide], log_calls (full_text_of trees_slide) 3 new_world).
Proof.
  apply (extracted_slide_always_gets_a_fallback_card
           (env_with failing_client []) 2 (py "Trees") new_world).
  - vm_compute. reflexivity.
  - intros k _. exists ClientError. reflexivity.
Defined.

Lemma extraction_paths_agree_without_blank_lines_witness :
  slide_of_page_pypdf2 1 (py "Graphs" ++ [nl] ++ py "Nodes and edges") =
  slide_of_page 1 (py "Graphs" ++ [nl] ++ py "Nodes and edges") /\
  slide_of_page 1 (py "Graphs" ++ [nl] ++ py "Nodes and edges") = graphs_slide.
Proof.
  split; [|vm_compute; reflexivity].
  apply (extraction_paths_agree_without_blank_lines 1
           (py "Graphs" ++ [nl] ++ py "Nodes and edges")).
  vm_compute. reflexivity.
Defined.

Lemma stamp_all_keeps_the_other_items_witness :
  exists out,
    stamp_all (py "Slide 1") (py "Graphs")
      [qa_card (JStr (py "Q")) (JStr (py "A"));
       JDict [(py "slide", JStr (py "from the model")); (py "extra", JInt 1)]] = Ok out /\
    length out = 2%nat /\
    Forall2 (stamped (py "Slide 1") (py "Graphs"))
      [qa_card (JStr (py "Q")) (JStr (py "A"));
       JDict [(py "slide", JStr (py "from the model")); (py "extra", JInt 1)]] out.
Proof.
  apply (stamp_all_keeps_the_other_items (py "Slide 1") (py "Graphs")
           [qa_card (JStr (py "Q")) (JStr (py "A"));
            JDict [(py "slide", JStr (py "from the model")); (py "extra", JInt 1)]]).
  reflexivity.
Defined.

Lemma slide_cards_after_retries_witness :
  exists out,
    slide_cards (env_with (replies_second two_cards_reply) []) graphs_slide new_world =
      (out, log_calls (full_text_of graphs_slide) 2 new_world) /\
    length out = 2%nat /\
    Forall2 (stamped (py "Slide 1") (py "Graphs"))
      [qa_card (JStr (py "What is a graph?")) (JStr (py "Nodes and edges"));
       qa_card (JStr (py "What is a tree?")) (JStr (py "A connected graph: no cycle"))]
      out.
Proof.
  apply (slide_cards_after_retries
           (env_with (replies_second two_cards_reply) []) graphs_slide new_world
           (k := 1) (reply := two_cards_reply)
           (items := [qa_card (JStr (py "What is a graph?")) (JStr (py "Nodes and edges"));
                      qa_card (JStr (py "What is a tree?"))
                              (JStr (py "A connected graph: no cycle"))])).
  - vm_compute. reflexivity.
  - lia.
  - intros i Hi. exists ClientError. destruct i as [|i]; [reflexivity|lia].
  - reflexivity.
  - vm_compute. reflexivity.
  - reflexivity.
Defined.

(** Three replies that are JSON but no list: each attempt fails at the
    stamping, and the slide gets its fallback card. *)
Lemma slide_cards_when_every_attempt_fails_witness :
  slide_cards (env_with (always_replies (py "42")) []) graphs_slide new_world =
    ([fallback_card graphs_slide], log_calls (full_text_of graphs_slide) 3 new_world).
Proof.
  apply (slide_cards_when_every_attempt_fails
           (env_with (always_replies (py "42")) []) graphs_slide new_world).
  - vm_compute. reflexivity.
  - intros i _. exists TypeError. vm_compute. reflexivity.
Defined.

Lemma every_card_carries_its_context_witness :
  is_dict (fallback_card trees_slide) = true /\
  exists s, In s [graphs_slide; trees_slide] /\
    (card_get (py "context") (fallback_card trees_slide) =
       Some (JStr (title (clean_slide_content s))) \/
     (fallback_card trees_slide = fallback_card (clean_slide_content s) /\
      card_get (py "context") (fallback_card trees_slide) =
        Some (JStr failure_context))).
Proof.
  apply (every_card_carries_its_context
           (env_with (replies_once two_cards_reply) [])
           [graphs_slide; trees_slide] new_world).
  vm_compute. auto.
Defined.

Lemma deck_builds_from_cards_with_question_and_answer_witness :
  exists d,
    create_anki_deck (env_with (replies_once two_cards_reply) [])
      (fst (generate_flashcards_with_deepseek
              (env_with (replies_once two_cards_reply) [])
              [graphs_slide; trees_slide] new_world)) (py "Deck") = Ok d /\
    length (notes d) =
      length (fst (generate_flashcards_with_deepseek
                     (env_with (replies_once two_cards_reply) [])
                     [graphs_slide; trees_slide] new_world)).
Proof.
  apply (deck_builds_from_cards_with_question_and_answer
           (env_with (replies_once two_cards_reply) [])
           [graphs_slide; trees_slide] new_world (py "Deck")).
  intros k text reply items card0 Hc Hr Hin.
  destruct k as [|k]; [|discriminate].
  injection Hc as <-. vm_compute in Hr. injection Hr as <-.
  destruct Hin as [<-|[<-|[]]]; split; vm_compute; discriminate.
Defined.

Lemma create_anki_deck_fails_only_without_question_or_answer_witness :
  create_anki_deck (env_with (replies_once (pyq "[{'q': 'What is a graph?'}]")) [])
    (fst (generate_flashcards_with_deepseek
            (env_with (replies_once (pyq "[{'q': 'What is a graph?'}]")) [])
            [graphs_slide] new_world)) (py "Deck") = Raise (KeyError (py "question")) /\
  (KeyError (py "question") = KeyError (py "question") \/
   KeyError (py "question") = KeyError (py "answer")).
Proof.
  assert (H : create_anki_deck
                (env_with (replies_once (pyq "[{'q': 'What is a graph?'}]")) [])
                (fst (generate_flashcards_with_deepseek
                        (env_with (replies_once (pyq "[{'q': 'What is a graph?'}]")) [])
                        [graphs_slide] new_world)) (py "Deck") =
              Raise (KeyError (py "question"))) by (vm_compute; reflexivity).
  split; [exact H|].
  exact (create_anki_deck_fails_only_without_question_or_answer
           (env_with (replies_once (pyq "[{'q': 'What is a graph?'}]")) [])
           [graphs_slide] new_world (py "Deck") H).
Defined.

Lemma recover_cards_without_bracket_witness :
  embedded_json_array (py "Sorry, I cannot help with that.") = Ok None /\
  recover_cards (py "Sorry, I cannot help with that.") (full_text_of graphs_slide) =
    Ok (JList (manual_extraction (py "Sorry, I cannot help with that.")
                                 (full_text_of graphs_slide))) /\
  manual_extraction (py "Sorry, I cannot help with that.")
                    (full_text_of graphs_slide) <> [] /\
  Forall is_qa_pair (manual_extraction (py "Sorry, I cannot help with that.")
                                       (full_text_of graphs_slide)).
Proof.
  apply (recover_cards_without_bracket (py "Sorry, I cannot help with that.")
           (full_text_of graphs_slide)).
  - vm_compute. intuition discriminate.
  - vm_compute. reflexivity.
Defined.


Lemma process_file_writes_into_downloads_witness :
  py "/home/user/Downloads/talk_flashcards.apkg" =
    path_join (py "/home/user") (py "Downloads") ++ [ch "/"] ++ py "talk"
    ++ py "_flashcards.apkg" /\
  ~ In (ch "/") (fst (splitext (basename (py "/home/user/talk.PDF")))) /\
  fst (splitext (basename (py "/home/user/talk.PDF")))
    ++ snd (splitext (basename (py "/home/user/talk.PDF"))) = py "talk.PDF".
Proof.
  assert (H : fst (process_file (env_with (replies_once two_cards_reply) two_pages)
                     (py "/home/user/talk.PDF") (py "Deck") new_world) =
              Ok (3%nat, py "/home/user/Downloads/talk_flashcards.apkg"))
    by (vm_compute; reflexivity).
  exact (process_file_writes_into_downloads
           (env_with (replies_once two_cards_reply) two_pages)
           (py "/home/user/talk.PDF") (py "Deck") new_world H).
Defined.


Lemma generator_with_client_down_witness :
  fst (generate_flashcards_with_deepseek (env_with failing_client [])
         [graphs_slide; untitled_slide; trees_slide] new_world) =
  [fallback_card graphs_slide; fallback_card trees_slide].
Proof.
  rewrite (generator_with_client_down (env_with failing_client [])
             (fun n text => ex_intro _ ClientError eq_refl)
             [graphs_slide; untitled_slide; trees_slide] new_world).
  vm_compute. reflexivity.
Defined.

Lemma process_file_with_client_down_witness :
  exists output_path,
    fst (process_file (env_with failing_client two_pages) (py "talk.pdf")
           (py "Deck") new_world) = Ok (2%nat, output_path).
Proof.
  apply (process_file_with_client_down (env_with failing_client two_pages)
           (fun n text => ex_intro _ ClientError eq_refl)
           (py "talk.pdf") (py "Deck") new_world (pages := two_pages)).
  - vm_compute. reflexivity.
  - reflexivity.
  - reflexivity.
Defined.
